(** * Texture batch generator: [scripts/generate-textures.py]

    A shallow embedding of the script and the proofs of its contract.

    The script talks to the outside world only through a handful of calls:
    the import of the [openai] package, [os.environ.get], [Path.mkdir],
    [Path.exists], the [OpenAI] constructor, [client.images.generate],
    [urllib.request.urlretrieve], [base64.b64decode], [open]/[write] and
    [print].  The answers of the outside world are collected in a record
    [World]; the program threads a [State] (the files on disk and the
    chronological trace of the calls it made) through a small monad [Proc]
    in which a computation either goes on with a value or stops, with
    [SystemExit] or with a raised exception. *)

From Stdlib Require Import String Ascii List.
From Stdlib.Strings Require Import Byte.
From stdpp Require Import base option list gmap strings fin_maps fin_sets pretty.

Local Open Scope string_scope.
Local Open Scope list_scope.

(** ** Values *)

(** Contents of a file. *)
Abbreviation bytes := (list byte).

(** An instance of Python's [Exception] class, the class named by the
    handler on line 104: its class name, and [str(e)], the only part the
    script reads. *)
Record exn := Exn { exn_class : string; exn_str : string }.

(** The way a process (or a computation) stops early: [exit(code)] raises
    [SystemExit], which is no [Exception] and passes through
    [except Exception]; an [Exception] that nothing catches ends the process
    with a traceback. *)
Inductive ending :=
| SystemExit (code : nat)
| Raised (e : exn).

(** An attribute of a response object: missing ([hasattr] is false), [None],
    or a string. *)
Inductive attr :=
| NoAttr
| AttrNone
| AttrStr (s : string).

(** One element of [response.data]: [url] is [None] or a string; [b64_json]
    is probed with [hasattr] on line 94. *)
Record Image := { url : option string; b64_json : attr }.

Record ImagesResponse := { data : list Image }.

(** The keyword arguments of [client.images.generate] (lines 77-83). *)
Record ImageRequest := {
  req_model : string;
  req_prompt : string;
  req_n : nat;
  req_size : string;
  req_quality : string
}.

(** [OpenAI(api_key=...)]. *)
Record Client := { api_key : string }.

(** What a failed download or a failed file write leaves at the target path
    (nothing, or the bytes written so far), and the exception it raised. *)
Record failure := { left_behind : option bytes; raised : exn }.

(** ** The outside world *)

Record World := {
  (** does [from openai import OpenAI] succeed (line 12) *)
  openai_installed : bool;
  (** [str(Path(__file__).parent.parent)] *)
  repo_dir : string;
  (** [os.environ] *)
  environ : gmap string string;
  (** the files on disk when the process starts: path to contents *)
  files : gmap string bytes;
  (** [Path.mkdir(parents=True, exist_ok=True)]: [Some e] when it raises *)
  mkdir : string → option exn;
  (** the [OpenAI] constructor: [Some e] when it raises *)
  OpenAI : string → option exn;
  (** [client.images.generate(...)]: raises, or returns a response *)
  images_generate : Client → ImageRequest → exn + ImagesResponse;
  (** [urllib.request.urlretrieve(url, filename)]: the bytes it stores at
      [filename], or a failure *)
  urlretrieve : string → string → bytes + failure;
  (** [base64.b64decode] *)
  b64decode : string → exn + bytes;
  (** [open(path, "wb")] followed by [f.write(data)]: [None] when all of
      [data] is stored, or a failure *)
  open_write : string → bytes → option failure
}.

(** ** State and trace *)

Inductive event :=
| EPrint (line : string)
| EMkdir (path : string)
| ENewClient (key : string)
| EExists (path : string)
| EGenerate (client : Client) (req : ImageRequest)
| EUrlretrieve (link path : string)
| EB64decode (encoded : string)
| EOpenWrite (path : string) (content : bytes).

Record State := { fs : gmap string bytes; trace : list event }.

Inductive flow (A : Type) :=
| Next (a : A)
| Stop (e : ending).
Arguments Next {A} a.
Arguments Stop {A} e.

Definition Proc (A : Type) : Type := State → State * flow A.

Definition ret {A} (a : A) : Proc A := λ st, (st, Next a).

Definition bind {A B} (c : Proc A) (k : A → Proc B) : Proc B :=
  λ st, match c st with
        | (st', Next a) => k a st'
        | (st', Stop e) => (st', Stop e)
        end.

Notation "'let!' x ':=' c 'in' k" := (bind c (λ x, k))
  (at level 10, x name, c at level 100, k at level 200).
Notation "c ';;;' k" := (bind c (λ _, k))
  (at level 100, k at level 200, right associativity).

Definition raise {A} (e : exn) : Proc A := λ st, (st, Stop (Raised e)).

(** The builtin [exit(code)]. *)
Definition exit {A} (code : nat) : Proc A := λ st, (st, Stop (SystemExit code)).

(** [try: body / except Exception as e: handler e]. *)
Definition try_except {A} (body : Proc A) (handler : exn → Proc A) : Proc A :=
  λ st, match body st with
        | (st', Stop (Raised e)) => handler e st'
        | r => r
        end.

Definition emit (ev : event) : Proc unit :=
  λ st, ({| fs := fs st; trace := trace st ++ [ev] |}, Next tt).

Definition store (path : string) (content : option bytes) : Proc unit :=
  λ st, (match content with
         | Some b => {| fs := <[path := b]> (fs st); trace := trace st |}
         | None => st
         end, Next tt).

Definition print (line : string) : Proc unit := emit (EPrint line).

(** ** The calls to the outside world *)

(** [path.exists()], taken to answer; [Raising.path_exists] below is the
    probe that can raise. *)
Definition path_exists (path : string) : Proc bool :=
  emit (EExists path) ;;;
  λ st, (st, Next (match fs st !! path with Some _ => true | None => false end)).

Definition call_mkdir (w : World) (path : string) : Proc unit :=
  emit (EMkdir path) ;;;
  match mkdir w path with
  | Some e => raise e
  | None => ret tt
  end.

Definition call_OpenAI (w : World) (key : string) : Proc Client :=
  emit (ENewClient key) ;;;
  match OpenAI w key with
  | Some e => raise e
  | None => ret {| api_key := key |}
  end.

Definition call_images_generate (w : World) (client : Client) (req : ImageRequest)
  : Proc ImagesResponse :=
  emit (EGenerate client req) ;;;
  match images_generate w client req with
  | inl e => raise e
  | inr response => ret response
  end.

Definition call_urlretrieve (w : World) (link path : string) : Proc unit :=
  emit (EUrlretrieve link path) ;;;
  match urlretrieve w link path with
  | inl content => store path (Some content)
  | inr f => store path (left_behind f) ;;; raise (raised f)
  end.

Definition call_b64decode (w : World) (encoded : string) : Proc bytes :=
  emit (EB64decode encoded) ;;;
  match b64decode w encoded with
  | inl e => raise e
  | inr content => ret content
  end.

Definition call_open_write (w : World) (path : string) (content : bytes) : Proc unit :=
  emit (EOpenWrite path content) ;;;
  match open_write w path content with
  | None => store path (Some content)
  | Some f => store path (left_behind f) ;;; raise (raised f)
  end.

(** [l[0]]. *)
Definition item0 {A} (l : list A) : Proc A :=
  match l with
  | x :: _ => ret x
  | [] => raise (Exn "IndexError" "list index out of range")
  end.

(** Truth value of an object that is [None] or a string. *)
Definition truthy (o : option string) : option string :=
  match o with
  | Some "" => None
  | _ => o
  end.

(** [hasattr(x, 'b64_json') and x.b64_json]. *)
Definition b64_of (x : Image) : option string :=
  match b64_json x with
  | AttrStr s => truthy (Some s)
  | _ => None
  end.

(** ** The script *)

(** [p / c] on paths, rendered with the POSIX separator, for a directory
    [p] other than the root and a relative [c] without separator, which
    is what line 18 and, for the names of the table, line 67 join. *)
Definition joinpath (p c : string) : string := p +:+ "/" +:+ c.

(** Line 18. *)
Definition OUTPUT_DIR (w : World) : string :=
  joinpath (joinpath (joinpath (repo_dir w) "public") "textures") "zones".

(** Lines 21-62: a dict literal, kept as the list of its items in insertion
    order, which is the order [TEXTURES.items()] yields them in. *)
Definition TEXTURES : list (string * string) := [
  ("industrial_floor",
   "Seamless tileable industrial metal floor texture, dark steel plates with rust stains " +:+
   "and oil marks, rivets and grating, worn metallic surface, top-down view, game asset, " +:+
   "dark color scheme, 512x512 pixels");
  ("industrial_wall",
   "Seamless tileable industrial wall texture, corrugated metal sheets with pipes and " +:+
   "conduits running across, rust patches and grime, concrete sections, dark atmosphere, " +:+
   "game asset, 512x512 pixels");
  ("ritual_floor",
   "Seamless tileable dark stone floor texture with glowing purple mystical runes, " +:+
   "ancient carved arcane symbols, candlewax stains, occult dungeon floor, dark purple " +:+
   "and black color scheme, top-down view, game asset, 512x512 pixels");
  ("ritual_wall",
   "Seamless tileable dark dungeon wall texture with carved arcane symbols, glowing " +:+
   "purple crystalline veins in dark stone, mystical energy cracks, ancient masonry, " +:+
   "game asset, 512x512 pixels");
  ("organic_floor",
   "Seamless tileable dirty organic floor texture, mud and debris, scattered small bones " +:+
   "and organic matter, nest materials like straw and fur, grimy dungeon floor, earthy " +:+
   "brown and dark colors, top-down view, game asset, 512x512 pixels");
  ("organic_wall",
   "Seamless tileable organic cave wall texture, earthy browns and dark colors, roots " +:+
   "and vines growing through cracks, moisture stains, natural rock formation with " +:+
   "organic growth, game asset, 512x512 pixels");
  ("neutral_floor",
   "Seamless tileable clean stone floor texture, polished grey flagstones with minimal " +:+
   "wear, orderly geometric pattern, safe room floor appearance, neutral grey tones, " +:+
   "top-down view, game asset, 512x512 pixels");
  ("neutral_wall",
   "Seamless tileable clean stone wall texture, well-maintained grey masonry blocks, " +:+
   "minimal decoration, sturdy dungeon wall, neutral grey and brown tones, game asset, " +:+
   "512x512 pixels")
].

(** Line 67. *)
Definition output_path (w : World) (name : string) : string :=
  joinpath (OUTPUT_DIR w) (name +:+ ".png").

(** Lines 77-83. *)
Definition image_request (prompt : string) : ImageRequest :=
  {| req_model := "gpt-image-1";
     req_prompt := prompt;
     req_n := 1;
     req_size := "1024x1024";
     req_quality := "medium" |}.

(** The lines the script prints. *)
Definition skip_line (name : string) : string := "  [SKIP] " +:+ name +:+ ".png already exists".
Definition gen_line (name : string) : string := "  [GEN] " +:+ name +:+ "...".
Definition ok_line (name : string) : string := "  [OK] Saved " +:+ name +:+ ".png".
Definition no_data_line : string := "  [ERR] No image data in response".
Definition failed_line (name : string) (e : exn) : string :=
  "  [ERR] Failed to generate " +:+ name +:+ ": " +:+ exn_str e.
Definition import_error_line : string :=
  "Error: openai package not installed. Run: pip install openai".
Definition no_key_line : string := "Error: OPENAI_API_KEY environment variable not set".
Definition export_key_line : string := "Run: export OPENAI_API_KEY='your-key-here'".
Definition target_line (w : World) : string := "Generating zone textures to: " +:+ OUTPUT_DIR w.
Definition total_line : string :=
  "Total textures to generate: " +:+ pretty (length TEXTURES).
Definition complete_line (success_count : nat) : string :=
  "Complete! Generated " +:+ pretty success_count +:+ "/" +:+ pretty (length TEXTURES)
  +:+ " textures".
Definition retry_line : string :=
  "Some textures failed. Re-run the script to retry failed ones.".

(** Lines 76-102: the body of the [try].  The source evaluates
    [response.data[0]] once for the URL and again, up to three times, for
    the inline data; the evaluations after the first cannot raise. *)
Definition generate_texture_try (w : World) (client : Client) (name prompt : string)
  : Proc bool :=
  let! response := call_images_generate w client (image_request prompt) in
  let! first := item0 (data response) in
  match truthy (url first) with
  | Some image_url =>
      call_urlretrieve w image_url (output_path w name) ;;;
      print (ok_line name) ;;;
      ret true
  | None =>
      let! again := item0 (data response) in
      match b64_of again with
      | Some encoded =>
          let! image_data := call_b64decode w encoded in
          call_open_write w (output_path w name) image_data ;;;
          print (ok_line name) ;;;
          ret true
      | None =>
          print no_data_line ;;;
          ret false
      end
  end.

(** Lines 65-106. *)
Definition generate_texture (w : World) (client : Client) (name prompt : string)
  : Proc bool :=
  let! present := path_exists (output_path w name) in
  if present : bool then
    print (skip_line name) ;;;
    ret true
  else
    print (gen_line name) ;;;
    try_except
      (generate_texture_try w client name prompt)
      (λ e, print (failed_line name e) ;;; ret false).

(** Lines 126-129: the loop over [TEXTURES.items()]. *)
Fixpoint for_items (w : World) (client : Client) (items : list (string * string))
  (success_count : nat) : Proc nat :=
  match items with
  | [] => ret success_count
  | (name, prompt) :: rest =>
      let! ok := generate_texture w client name prompt in
      for_items w client rest (if ok : bool then success_count + 1 else success_count)
  end.

(** Lines 109-135. *)
Definition main (w : World) : Proc unit :=
  match truthy (environ w !! "OPENAI_API_KEY") with
  | None =>
      print no_key_line ;;;
      print export_key_line ;;;
      exit 1
  | Some key =>
      call_mkdir w (OUTPUT_DIR w) ;;;
      print (target_line w) ;;;
      print total_line ;;;
      print "" ;;;
      let! client := call_OpenAI w key in
      let! success_count := for_items w client TEXTURES 0 in
      print "" ;;;
      print (complete_line success_count) ;;;
      if (success_count <? length TEXTURES)%nat
      then print retry_line
      else ret tt
  end.

(** Lines 11-15 and 138-139: the module body. *)
Definition script (w : World) : Proc unit :=
  (if openai_installed w
   then ret tt
   else print import_error_line ;;; exit 1) ;;;
  main w.

(** ** Running a process *)

Definition boot (w : World) : State := {| fs := files w; trace := [] |}.

(** The exit status of the process: 0 when the module body runs to its end,
    the code given to [exit], 1 after a traceback. *)
Definition exit_status (r : flow unit) : nat :=
  match r with
  | Next _ => 0
  | Stop (SystemExit code) => code
  | Stop (Raised _) => 1
  end.

(** Standard output: the printed lines, in order. *)
Definition stdout (t : list event) : list string :=
  omap (λ ev, match ev with EPrint line => Some line | _ => None end) t.

(** The paths probed with [exists], in order: one per processed spec. *)
Definition probes (t : list event) : list string :=
  omap (λ ev, match ev with EExists p => Some p | _ => None end) t.

(** The generation requests sent, in order. *)
Definition requests (t : list event) : list ImageRequest :=
  omap (λ ev, match ev with EGenerate _ req => Some req | _ => None end) t.

(** Calls that go over the network. *)
Definition is_network (ev : event) : bool :=
  match ev with
  | EGenerate _ _ | EUrlretrieve _ _ => true
  | _ => false
  end.

(** Calls that change the disk. *)
Definition is_disk_write (ev : event) : bool :=
  match ev with
  | EMkdir _ | EUrlretrieve _ _ | EOpenWrite _ _ => true
  | _ => false
  end.

(** ** Outcomes *)

Inductive outcome := AlreadyPresent | Saved | Failed.

Fixpoint starts_with (p s : string) : bool :=
  match p, s with
  | EmptyString, _ => true
  | String a p', String b s' => Ascii.eqb a b && starts_with p' s'
  | String _ _, EmptyString => false
  end.

(** The outcome a printed line records: the script keeps no other record
    of it than the line and the success count. *)
Definition outcome_of_line (line : string) : option outcome :=
  if starts_with "  [SKIP] " line then Some AlreadyPresent
  else if starts_with "  [OK] " line then Some Saved
  else if starts_with "  [ERR] " line then Some Failed
  else None.

Definition outcomes (t : list event) : list outcome := omap outcome_of_line (stdout t).

Definition success (o : outcome) : bool :=
  match o with
  | AlreadyPresent | Saved => true
  | Failed => false
  end.

(** ** Sample worlds *)

Definition sample_bytes : bytes := [x89; x50; x4e; x47].

(** A world with nothing on disk and a service that answers every request
    with a URL that downloads. *)
Definition nice_world : World := {|
  openai_installed := true;
  repo_dir := "/repo";
  environ := {[ "OPENAI_API_KEY" := "sk-test" ]};
  files := ∅;
  mkdir := λ _, None;
  OpenAI := λ _, None;
  images_generate := λ _ req,
    inr {| data := [ {| url := Some ("https://img.test/" +:+ req_prompt req);
                        b64_json := AttrNone |} ] |};
  urlretrieve := λ _ _, inl sample_bytes;
  b64decode := λ _, inr sample_bytes;
  open_write := λ _ _, None
|}.

(** ** Reading traces, runs and worlds *)

(** The path a call writes to, when it writes a file. *)
Definition written_path (ev : event) : option string :=
  match ev with
  | EUrlretrieve _ p | EOpenWrite p _ => Some p
  | _ => None
  end.

(** The paths written to, by a download or by the script, in order. *)
Definition writes (t : list event) : list string := omap written_path t.

(** [st] after the calls [evs] that leave the files as they are. *)
Definition logged (st : State) (evs : list event) : State :=
  {| fs := fs st; trace := trace st ++ evs |}.

(** [st] after the calls [evs], the last of which stored [content] at [path]. *)
Definition stored (st : State) (path : string) (content : bytes) (evs : list event)
  : State :=
  {| fs := <[path := content]> (fs st); trace := trace st ++ evs |}.

(** [st] after the calls [evs], one of which may have left [content] at
    [path]. *)
Definition broken_off (st : State) (path : string) (content : option bytes) (evs : list event)
  : State :=
  match content with
  | Some b => stored st path b evs
  | None => logged st evs
  end.

(** The lines of the batch all start with a bracketed tag. *)
Definition body_line (line : string) : Prop := starts_with "  [" line = true.

(** What a call of [generate_texture] for [name] does, from [st] to [st']
    with result [r]: [seg] is what it adds to the trace and [o] the one
    outcome it records. *)
Record step_facts (w : World) (name prompt : string) (st st' : State)
    (r : flow bool) (seg : list event) (o : outcome) : Prop := {
  sf_trace : trace st' = trace st ++ seg;
  sf_result : r = Next (success o);
  sf_probes : probes seg = [output_path w name];
  sf_outcomes : outcomes seg = [o];
  sf_lines : Forall body_line (stdout seg);
  sf_present : o = AlreadyPresent ↔ is_Some (fs st !! output_path w name);
  sf_saved : o = Saved → is_Some (fs st' !! output_path w name);
  sf_requests : ∀ req, req ∈ requests seg →
                req = image_request prompt ∧ fs st !! output_path w name = None;
  sf_writes : ∀ p, p ∈ writes seg →
              p = output_path w name ∧ fs st !! output_path w name = None;
  sf_keep : ∀ p content, fs st !! p = Some content → fs st' !! p = Some content;
  sf_frame : ∀ p, p ≠ output_path w name → fs st' !! p = fs st !! p
}.

(** How many of the outcomes count as a success. *)
Definition success_total (os : list outcome) : nat := length (List.filter success os).

(** How many of the outcomes are failures. *)
Definition failed_total (os : list outcome) : nat :=
  length (List.filter (λ o, negb (success o)) os).

(** The output paths of the specs [items], in order. *)
Definition paths_of (w : World) (items : list (string * string)) : list string :=
  map (λ spec, output_path w spec.1) items.

(** [seg] is what the processing of [spec] adds to the trace, in a run of
    the loop from [st0] to [st']: the spec is processed in a state [st1]
    that has at its output path what [st0] has, and what the processing
    leaves there is still there in [st']. *)
Definition item_run (w : World) (client : Client) (st0 st' : State)
    (spec : string * string) (seg : list event) : Prop :=
  ∃ st1 st2 o,
    fs st1 !! output_path w spec.1 = fs st0 !! output_path w spec.1 ∧
    generate_texture w client spec.1 spec.2 st1 = (st2, Next (success o)) ∧
    step_facts w spec.1 spec.2 st1 st2 (Next (success o)) seg o ∧
    fs st' !! output_path w spec.1 = fs st2 !! output_path w spec.1.

(** The process: the module body, from the files on disk at start. *)
Definition run (w : World) : State * flow unit := script w (boot w).

(** The credential as [main] reads it: [None] when the variable is unset
    or empty. *)
Definition credential (w : World) : option string :=
  truthy (environ w !! "OPENAI_API_KEY").

(** Everything the script does before the loop goes through: the package
    is there, the credential is [key], and neither [mkdir] nor the client
    constructor raises. *)
Definition ready (w : World) (key : string) : Prop :=
  openai_installed w = true ∧ credential w = Some key ∧
  mkdir w (OUTPUT_DIR w) = None ∧ OpenAI w key = None.

(** Lines 118-124. *)
Definition preamble (w : World) (key : string) : list event :=
  [EMkdir (OUTPUT_DIR w); EPrint (target_line w); EPrint total_line; EPrint "";
   ENewClient key].

(** Lines 131-135. *)
Definition epilogue (success_count : nat) : list event :=
  [EPrint ""; EPrint (complete_line success_count)] ++
  (if (success_count <? length TEXTURES)%nat then [EPrint retry_line] else []).

(** Every run is one of five. *)
Inductive run_case (w : World) : State → flow unit → Prop :=
| run_no_package :
    openai_installed w = false →
    run_case w (logged (boot w) [EPrint import_error_line]) (Stop (SystemExit 1))
| run_no_key :
    openai_installed w = true → credential w = None →
    run_case w (logged (boot w) [EPrint no_key_line; EPrint export_key_line])
               (Stop (SystemExit 1))
| run_mkdir_raises key e :
    openai_installed w = true → credential w = Some key →
    mkdir w (OUTPUT_DIR w) = Some e →
    run_case w (logged (boot w) [EMkdir (OUTPUT_DIR w)]) (Stop (Raised e))
| run_client_raises key e :
    openai_installed w = true → credential w = Some key →
    mkdir w (OUTPUT_DIR w) = None → OpenAI w key = Some e →
    run_case w (logged (boot w) (preamble w key)) (Stop (Raised e))
| run_batch key st' :
    ready w key → run w = (st', Next tt) →
    run_case w st' (Next tt).

(** The fourth spec of the table, ritual_wall, and worlds to run the
    script in. *)
Definition sample_spec : string * string := nth 3 TEXTURES ("", "").

(** A world with one texture on disk. *)
Definition skip_world : World := {|
  openai_installed := true;
  repo_dir := "/repo";
  environ := {[ "OPENAI_API_KEY" := "sk-test" ]};
  files := {[ "/repo/public/textures/zones/ritual_wall.png" := [x01; x02] ]};
  mkdir := λ _, None;
  OpenAI := λ _, None;
  images_generate := λ _ req,
    inr {| data := [ {| url := Some ("https://img.test/" +:+ req_prompt req);
                        b64_json := AttrNone |} ] |};
  urlretrieve := λ _ _, inl sample_bytes;
  b64decode := λ _, inr sample_bytes;
  open_write := λ _ _, None
|}.

(** A world without the credential variable. *)
Definition no_key_world : World := {|
  openai_installed := true;
  repo_dir := "/repo";
  environ := {[ "HOME" := "/root" ]};
  files := ∅;
  mkdir := λ _, None;
  OpenAI := λ _, None;
  images_generate := λ _ _, inr {| data := [ {| url := Some "https://img.test/x";
                                               b64_json := AttrNone |} ] |};
  urlretrieve := λ _ _, inl sample_bytes;
  b64decode := λ _, inr sample_bytes;
  open_write := λ _ _, None
|}.

(** A trace in which the process did nothing but print. *)
Definition only_prints (t : list event) : Prop := t = map EPrint (stdout t).

(** The world [w] with the credential variable removed from the environment. *)
Definition unset_key (w : World) : World := {|
  openai_installed := openai_installed w;
  repo_dir := repo_dir w;
  environ := delete "OPENAI_API_KEY" (environ w);
  files := files w;
  mkdir := mkdir w;
  OpenAI := OpenAI w;
  images_generate := images_generate w;
  urlretrieve := urlretrieve w;
  b64decode := b64decode w;
  open_write := open_write w
|}.

(** A world with the credential variable set to the empty string. *)
Definition empty_key_world : World := {|
  openai_installed := true;
  repo_dir := "/repo";
  environ := {[ "OPENAI_API_KEY" := "" ]};
  files := ∅;
  mkdir := λ _, None;
  OpenAI := λ _, None;
  images_generate := λ _ _, inr {| data := [ {| url := Some "https://img.test/x";
                                               b64_json := AttrNone |} ] |};
  urlretrieve := λ _ _, inl sample_bytes;
  b64decode := λ _, inr sample_bytes;
  open_write := λ _ _, None
|}.

(** The strings handed to [base64.b64decode], in order. *)
Definition decodes (t : list event) : list string :=
  omap (λ ev, match ev with EB64decode s => Some s | _ => None end) t.

(** The paths opened for writing by the script itself, in order. *)
Definition opens (t : list event) : list string :=
  omap (λ ev, match ev with EOpenWrite p _ => Some p | _ => None end) t.

(** The URLs downloaded, in order. *)
Definition downloads (t : list event) : list string :=
  omap (λ ev, match ev with EUrlretrieve link _ => Some link | _ => None end) t.

(** A world whose service answers with a URL and inline data at once, and
    in which the download of the URL breaks. *)
Definition broken_link_world : World := {|
  openai_installed := true;
  repo_dir := "/repo";
  environ := {[ "OPENAI_API_KEY" := "sk-test" ]};
  files := ∅;
  mkdir := λ _, None;
  OpenAI := λ _, None;
  images_generate := λ _ _, inr {| data := [ {| url := Some "https://img.test/x";
                                               b64_json := AttrStr "iVBORw==" |} ] |};
  urlretrieve := λ _ _, inr {| left_behind := None;
                                raised := Exn "HTTPError" "HTTP Error 403: Forbidden" |};
  b64decode := λ _, inr sample_bytes;
  open_write := λ _ _, None
|}.

(** A world whose service answers with neither a URL nor inline data. *)
Definition empty_answer_world : World := {|
  openai_installed := true;
  repo_dir := "/repo";
  environ := {[ "OPENAI_API_KEY" := "sk-test" ]};
  files := ∅;
  mkdir := λ _, None;
  OpenAI := λ _, None;
  images_generate := λ _ _, inr {| data := [ {| url := None; b64_json := AttrNone |} ] |};
  urlretrieve := λ _ _, inl sample_bytes;
  b64decode := λ _, inr sample_bytes;
  open_write := λ _ _, None
|}.

(** A world whose service answers with inline data only. *)
Definition inline_world : World := {|
  openai_installed := true;
  repo_dir := "/repo";
  environ := {[ "OPENAI_API_KEY" := "sk-test" ]};
  files := ∅;
  mkdir := λ _, None;
  OpenAI := λ _, None;
  images_generate := λ _ _, inr {| data := [ {| url := None;
                                               b64_json := AttrStr "iVBORw==" |} ] |};
  urlretrieve := λ _ _, inl [x00];
  b64decode := λ _, inr sample_bytes;
  open_write := λ _ _, None
|}.

(** The calls inside the [try] that can raise. *)
Inductive phase := Request | Response | Download | Decode | Write.

(** [raises w client name prompt ph e]: for this spec, with its file
    missing, the call [ph] raises [e]: the generation request, the
    subscript [response.data[0]], the download of the URL, the decoding of
    the inline data, or the writing of the file. *)
Inductive raises (w : World) (client : Client) (name prompt : string)
  : phase → exn → Prop :=
| raises_request e :
    images_generate w client (image_request prompt) = inl e →
    raises w client name prompt Request e
| raises_response :
    images_generate w client (image_request prompt) = inr {| data := [] |} →
    raises w client name prompt Response (Exn "IndexError" "list index out of range")
| raises_download first rest link f :
    images_generate w client (image_request prompt) = inr {| data := first :: rest |} →
    truthy (url first) = Some link →
    urlretrieve w link (output_path w name) = inr f →
    raises w client name prompt Download (raised f)
| raises_decode first rest encoded e :
    images_generate w client (image_request prompt) = inr {| data := first :: rest |} →
    truthy (url first) = None →
    b64_of first = Some encoded →
    b64decode w encoded = inl e →
    raises w client name prompt Decode e
| raises_write first rest encoded content f :
    images_generate w client (image_request prompt) = inr {| data := first :: rest |} →
    truthy (url first) = None →
    b64_of first = Some encoded →
    b64decode w encoded = inr content →
    open_write w (output_path w name) content = Some f →
    raises w client name prompt Write (raised f).

(** A world whose service is down. *)
Definition down_world : World := {|
  openai_installed := true;
  repo_dir := "/repo";
  environ := {[ "OPENAI_API_KEY" := "sk-test" ]};
  files := ∅;
  mkdir := λ _, None;
  OpenAI := λ _, None;
  images_generate := λ _ _, inl (Exn "APIConnectionError" "Connection error.");
  urlretrieve := λ _ _, inl sample_bytes;
  b64decode := λ _, inr sample_bytes;
  open_write := λ _ _, None
|}.

(** The output file of the spec is on disk at start. *)
Definition present (w : World) (spec : string * string) : bool :=
  match files w !! output_path w spec.1 with
  | Some _ => true
  | None => false
  end.

(** The service answers the request for the spec with a URL, and the
    download of that URL to the spec's output path succeeds. *)
Definition served_by_url (w : World) (client : Client) (spec : string * string) : bool :=
  match images_generate w client (image_request spec.2) with
  | inr {| data := first :: _ |} =>
      match truthy (url first) with
      | Some link =>
          match urlretrieve w link (output_path w spec.1) with
          | inl _ => true
          | inr _ => false
          end
      | None => false
      end
  | _ => false
  end.

(** The files the run created: on disk at the end, not at start. *)
Definition created (w : World) (st' : State) : gset string :=
  dom (fs st') ∖ dom (files w).

(** How many of the outcomes are skips. *)
Definition skipped_total (os : list outcome) : nat :=
  length (List.filter (λ o, match o with AlreadyPresent => true | _ => false end) os).

(** A world with three textures on disk and a service that serves the rest. *)
Definition three_world : World := {|
  openai_installed := true;
  repo_dir := "/repo";
  environ := {[ "OPENAI_API_KEY" := "sk-test" ]};
  files := {[ "/repo/public/textures/zones/industrial_floor.png" := [x01];
              "/repo/public/textures/zones/ritual_wall.png" := [x02];
              "/repo/public/textures/zones/neutral_wall.png" := [x03] ]};
  mkdir := λ _, None;
  OpenAI := λ _, None;
  images_generate := λ _ req,
    inr {| data := [ {| url := Some ("https://img.test/" +:+ req_prompt req);
                        b64_json := AttrNone |} ] |};
  urlretrieve := λ _ _, inl sample_bytes;
  b64decode := λ _, inr sample_bytes;
  open_write := λ _ _, None
|}.

(** A world whose service fails for one spec, the fourth. *)
Definition one_failure_world : World := {|
  openai_installed := true;
  repo_dir := "/repo";
  environ := {[ "OPENAI_API_KEY" := "sk-test" ]};
  files := ∅;
  mkdir := λ _, None;
  OpenAI := λ _, None;
  images_generate := λ _ req,
    if String.eqb (req_prompt req) sample_spec.2
    then inl (Exn "BadRequestError" "Your request was rejected.")
    else inr {| data := [ {| url := Some ("https://img.test/" +:+ req_prompt req);
                             b64_json := AttrNone |} ] |};
  urlretrieve := λ _ _, inl sample_bytes;
  b64decode := λ _, inr sample_bytes;
  open_write := λ _ _, None
|}.

(** A world with the credential set and the [openai] package missing. *)
Definition no_package_world : World := {|
  openai_installed := false;
  repo_dir := "/repo";
  environ := {[ "OPENAI_API_KEY" := "sk-test" ]};
  files := ∅;
  mkdir := λ _, None;
  OpenAI := λ _, None;
  images_generate := λ _ req,
    inr {| data := [ {| url := Some ("https://img.test/" +:+ req_prompt req);
                        b64_json := AttrNone |} ] |};
  urlretrieve := λ _ _, inl sample_bytes;
  b64decode := λ _, inr sample_bytes;
  open_write := λ _ _, None
|}.

(** A world with the credential set in which the output directory cannot
    be created. *)
Definition read_only_world : World := {|
  openai_installed := true;
  repo_dir := "/repo";
  environ := {[ "OPENAI_API_KEY" := "sk-test" ]};
  files := ∅;
  mkdir := λ _, Some (Exn "PermissionError" "[Errno 13] Permission denied");
  OpenAI := λ _, None;
  images_generate := λ _ req,
    inr {| data := [ {| url := Some ("https://img.test/" +:+ req_prompt req);
                        b64_json := AttrNone |} ] |};
  urlretrieve := λ _ _, inl sample_bytes;
  b64decode := λ _, inr sample_bytes;
  open_write := λ _ _, None
|}.

(** The response carries neither a usable URL nor usable inline data: it
    has no image at all, or its first image, the only one the script reads,
    has neither. *)
Definition lacks_image_data (response : ImagesResponse) : bool :=
  match data response with
  | [] => true
  | first :: _ =>
      match truthy (url first), b64_of first with
      | None, None => true
      | _, _ => false
      end
  end.

(** The error line the script prints for such a response: the explicit one
    when there is a first image, the one of the handler, with the message
    of [IndexError], when [response.data[0]] raises. *)
Definition lacking_line (name : string) (response : ImagesResponse) : string :=
  match data response with
  | [] => failed_line name (Exn "IndexError" "list index out of range")
  | _ :: _ => no_data_line
  end.

(** A world whose service answers with no image at all. *)
Definition no_image_world : World := {|
  openai_installed := true;
  repo_dir := "/repo";
  environ := {[ "OPENAI_API_KEY" := "sk-test" ]};
  files := ∅;
  mkdir := λ _, None;
  OpenAI := λ _, None;
  images_generate := λ _ _, inr {| data := [] |};
  urlretrieve := λ _ _, inl sample_bytes;
  b64decode := λ _, inr sample_bytes;
  open_write := λ _ _, None
|}.

(** The calls that obtain and store an image: the request, the download,
    the decoding and the writing by the script itself. *)
Definition is_image_call (ev : event) : bool :=
  match ev with
  | EGenerate _ _ | EUrlretrieve _ _ | EB64decode _ | EOpenWrite _ _ => true
  | _ => false
  end.

Definition image_calls (t : list event) : list event := List.filter is_image_call t.

(** The image calls one spec can get, in their order: none; the request
    alone; the request and a download to the output path; the request and
    a decoding; the request, a decoding and the writing of the decoded
    bytes to the output path. *)
Inductive call_shape (w : World) (client : Client) (name prompt : string)
  : list event → Prop :=
| shape_none :
    call_shape w client name prompt []
| shape_request :
    call_shape w client name prompt [EGenerate client (image_request prompt)]
| shape_download link :
    call_shape w client name prompt
      [EGenerate client (image_request prompt); EUrlretrieve link (output_path w name)]
| shape_decode encoded :
    call_shape w client name prompt
      [EGenerate client (image_request prompt); EB64decode encoded]
| shape_write encoded content :
    b64decode w encoded = inr content →
    call_shape w client name prompt
      [EGenerate client (image_request prompt); EB64decode encoded;
       EOpenWrite (output_path w name) content].

(** ** The probe that can raise

    [output_path.exists()] on line 70 is outside the [try].  The
    definitions above take it to answer; those of this module give it an
    exception to raise, for the paths for which the world has one, and are
    otherwise the same, line for line. *)
Module Raising.

(** A world, and the exception that [Path.exists()] raises for a path, if
    it raises for it. *)
Record Env := { world : World; exists_raises : string → option exn }.

(** [path.exists()]. *)
Definition path_exists (e : Env) (path : string) : Proc bool :=
  emit (EExists path) ;;;
  match exists_raises e path with
  | Some x => raise x
  | None =>
      λ st, (st, Next (match fs st !! path with Some _ => true | None => false end))
  end.

(** Lines 65-106. *)
Definition generate_texture (e : Env) (client : Client) (name prompt : string)
  : Proc bool :=
  let! present := path_exists e (output_path (world e) name) in
  if present : bool then
    print (skip_line name) ;;;
    ret true
  else
    print (gen_line name) ;;;
    try_except
      (generate_texture_try (world e) client name prompt)
      (λ x, print (failed_line name x) ;;; ret false).

(** Lines 126-129. *)
Fixpoint for_items (e : Env) (client : Client) (items : list (string * string))
  (success_count : nat) : Proc nat :=
  match items with
  | [] => ret success_count
  | (name, prompt) :: rest =>
      let! ok := generate_texture e client name prompt in
      for_items e client rest (if ok : bool then success_count + 1 else success_count)
  end.

(** Lines 109-135. *)
Definition main (e : Env) : Proc unit :=
  match truthy (environ (world e) !! "OPENAI_API_KEY") with
  | None =>
      print no_key_line ;;;
      print export_key_line ;;;
      exit 1
  | Some key =>
      call_mkdir (world e) (OUTPUT_DIR (world e)) ;;;
      print (target_line (world e)) ;;;
      print total_line ;;;
      print "" ;;;
      let! client := call_OpenAI (world e) key in
      let! success_count := for_items e client TEXTURES 0 in
      print "" ;;;
      print (complete_line success_count) ;;;
      if (success_count <? length TEXTURES)%nat
      then print retry_line
      else ret tt
  end.

(** Lines 11-15 and 138-139. *)
Definition script (e : Env) : Proc unit :=
  (if openai_installed (world e)
   then ret tt
   else print import_error_line ;;; exit 1) ;;;
  main e.

Definition run (e : Env) : State * flow unit := script e (boot (world e)).

(** No probe of an output path of the table raises. *)
Definition probes_answer (e : Env) : Prop :=
  ∀ spec, spec ∈ TEXTURES → exists_raises e (output_path (world e) spec.1) = None.

End Raising.

(** The world [nice_world] with probes that answer, and with a disk on
    which the output directory cannot be searched. *)
Definition nice_env : Raising.Env :=
  {| Raising.world := nice_world; Raising.exists_raises := λ _, None |}.

Definition locked_env : Raising.Env :=
  {| Raising.world := nice_world;
     Raising.exists_raises :=
       λ _, Some (Exn "PermissionError" "[Errno 13] Permission denied") |}.

(** ** Runs after runs *)

(** The generation requests sent, each with the client it was sent
    through, in order. *)
Definition sent (t : list event) : list (Client * ImageRequest) :=
  omap (λ ev, match ev with EGenerate c req => Some (c, req) | _ => None end) t.

(** The specs of [items] whose output file is missing at start. *)
Definition missing (w : World) (items : list (string * string)) : list (string * string) :=
  List.filter (λ spec, negb (present w spec)) items.

(** The world in which the script is run again, over the files that the
    state [st] has: everything else answers as before. *)
Definition run_again (w : World) (st : State) : World := {|
  openai_installed := openai_installed w;
  repo_dir := repo_dir w;
  environ := environ w;
  files := fs st;
  mkdir := mkdir w;
  OpenAI := OpenAI w;
  images_generate := images_generate w;
  urlretrieve := urlretrieve w;
  b64decode := b64decode w;
  open_write := open_write w
|}.

(** The calls of one [generate_texture], [seg] being what it adds to the
    trace from [st]: one request, through [client], exactly when the file
    is missing; at most one write, to the output path; and at most one of a
    download and a decoding per request. *)
Record step_calls (w : World) (client : Client) (name prompt : string) (st : State)
    (seg : list event) : Prop := {
  sc_sent : sent seg = match fs st !! output_path w name with
                       | Some _ => []
                       | None => [(client, image_request prompt)]
                       end;
  sc_writes : writes seg = [] ∨ writes seg = [output_path w name];
  sc_fetches : (length (downloads seg) + length (decodes seg) ≤ length (sent seg))%nat;
  sc_opens : (length (opens seg) ≤ length (decodes seg))%nat
}.

(** A world whose downloads break off and leave a truncated file. *)
Definition truncating_world : World := {|
  openai_installed := true;
  repo_dir := "/repo";
  environ := {[ "OPENAI_API_KEY" := "sk-test" ]};
  files := ∅;
  mkdir := λ _, None;
  OpenAI := λ _, None;
  images_generate := λ _ req,
    inr {| data := [ {| url := Some ("https://img.test/" +:+ req_prompt req);
                        b64_json := AttrNone |} ] |};
  urlretrieve := λ _ _, inr {| left_behind := Some [x89; x50];
                                raised := Exn "ContentTooShortError"
                                              "retrieval incomplete: got only 2 out of 4 bytes" |};
  b64decode := λ _, inr sample_bytes;
  open_write := λ _ _, None
|}.

(** A world in which the client cannot be constructed. *)
Definition no_client_world : World := {|
  openai_installed := true;
  repo_dir := "/repo";
  environ := {[ "OPENAI_API_KEY" := "sk-test" ]};
  files := ∅;
  mkdir := λ _, None;
  OpenAI := λ _, Some (Exn "TypeError" "unexpected keyword argument");
  images_generate := λ _ req,
    inr {| data := [ {| url := Some ("https://img.test/" +:+ req_prompt req);
                        b64_json := AttrNone |} ] |};
  urlretrieve := λ _ _, inl sample_bytes;
  b64decode := λ _, inr sample_bytes;
  open_write := λ _ _, None
|}.

(** * Proofs *)

(** ** Lines and outcomes *)

Lemma outcome_of_skip_line name : outcome_of_line (skip_line name) = Some AlreadyPresent.
Proof. reflexivity. Qed.

Lemma outcome_of_gen_line name : outcome_of_line (gen_line name) = None.
Proof. reflexivity. Qed.

Lemma outcome_of_ok_line name : outcome_of_line (ok_line name) = Some Saved.
Proof. reflexivity. Qed.

Lemma outcome_of_no_data_line : outcome_of_line no_data_line = Some Failed.
Proof. reflexivity. Qed.

Lemma outcome_of_failed_line name e : outcome_of_line (failed_line name e) = Some Failed.
Proof. reflexivity. Qed.

Lemma pretty_8 : pretty (length TEXTURES) = "8".
Proof. reflexivity. Qed.

(** ** Traces *)

Lemma stdout_app t1 t2 : stdout (t1 ++ t2) = stdout t1 ++ stdout t2.
Proof. apply omap_app. Qed.

Lemma probes_app t1 t2 : probes (t1 ++ t2) = probes t1 ++ probes t2.
Proof. apply omap_app. Qed.

Lemma requests_app t1 t2 : requests (t1 ++ t2) = requests t1 ++ requests t2.
Proof. apply omap_app. Qed.

Lemma writes_app t1 t2 : writes (t1 ++ t2) = writes t1 ++ writes t2.
Proof. apply omap_app. Qed.

Lemma outcomes_app t1 t2 : outcomes (t1 ++ t2) = outcomes t1 ++ outcomes t2.
Proof. unfold outcomes. by rewrite stdout_app, omap_app. Qed.

(** ** One texture *)

Ltac unfold_proc :=
  unfold generate_texture, generate_texture_try, path_exists, call_images_generate,
    call_urlretrieve, call_b64decode, call_open_write, call_mkdir, call_OpenAI,
    item0, try_except, print, emit, store, bind, ret, raise, exit, logged, stored.

Ltac trace_norm := simpl; rewrite <- ?app_assoc; simpl.

(** The file is there: skip. *)
Lemma generate_texture_present w client name prompt st content :
  fs st !! output_path w name = Some content →
  generate_texture w client name prompt st =
    (logged st [EExists (output_path w name); EPrint (skip_line name)], Next true).
Proof.
  intros Hfs. unfold_proc. simpl. rewrite Hfs. by trace_norm.
Qed.

(** The request raises. *)
Lemma generate_texture_request_raises w client name prompt st e :
  fs st !! output_path w name = None →
  images_generate w client (image_request prompt) = inl e →
  generate_texture w client name prompt st =
    (logged st [EExists (output_path w name); EPrint (gen_line name);
                EGenerate client (image_request prompt);
                EPrint (failed_line name e)], Next false).
Proof.
  intros Hfs Hgen. unfold_proc. simpl. rewrite Hfs. simpl. rewrite Hgen. by trace_norm.
Qed.

(** The response carries no image at all: [response.data[0]] raises. *)
Lemma generate_texture_no_item w client name prompt st :
  fs st !! output_path w name = None →
  images_generate w client (image_request prompt) = inr {| data := [] |} →
  generate_texture w client name prompt st =
    (logged st [EExists (output_path w name); EPrint (gen_line name);
                EGenerate client (image_request prompt);
                EPrint (failed_line name (Exn "IndexError" "list index out of range"))],
     Next false).
Proof.
  intros Hfs Hgen. unfold_proc. simpl. rewrite Hfs. simpl. rewrite Hgen. by trace_norm.
Qed.

(** The response has a URL and the download succeeds. *)
Lemma generate_texture_url w client name prompt st first rest link content :
  fs st !! output_path w name = None →
  images_generate w client (image_request prompt) = inr {| data := first :: rest |} →
  truthy (url first) = Some link →
  urlretrieve w link (output_path w name) = inl content →
  generate_texture w client name prompt st =
    (stored st (output_path w name) content
       [EExists (output_path w name); EPrint (gen_line name);
        EGenerate client (image_request prompt);
        EUrlretrieve link (output_path w name);
        EPrint (ok_line name)], Next true).
Proof.
  intros Hfs Hgen Hurl Hget. unfold_proc. simpl. rewrite Hfs. simpl.
  rewrite Hgen. simpl. rewrite Hurl. simpl. rewrite Hget. by trace_norm.
Qed.

(** The response has a URL and the download raises. *)
Lemma generate_texture_url_raises w client name prompt st first rest link f :
  fs st !! output_path w name = None →
  images_generate w client (image_request prompt) = inr {| data := first :: rest |} →
  truthy (url first) = Some link →
  urlretrieve w link (output_path w name) = inr f →
  generate_texture w client name prompt st =
    (broken_off st (output_path w name) (left_behind f)
       [EExists (output_path w name); EPrint (gen_line name);
        EGenerate client (image_request prompt);
        EUrlretrieve link (output_path w name);
        EPrint (failed_line name (raised f))], Next false).
Proof.
  intros Hfs Hgen Hurl Hget. unfold_proc. simpl. rewrite Hfs. simpl.
  rewrite Hgen. simpl. rewrite Hurl. simpl. rewrite Hget.
  unfold broken_off. destruct (left_behind f); by trace_norm.
Qed.

(** No URL, inline data, and decoding and writing succeed. *)
Lemma generate_texture_b64 w client name prompt st first rest encoded content :
  fs st !! output_path w name = None →
  images_generate w client (image_request prompt) = inr {| data := first :: rest |} →
  truthy (url first) = None →
  b64_of first = Some encoded →
  b64decode w encoded = inr content →
  open_write w (output_path w name) content = None →
  generate_texture w client name prompt st =
    (stored st (output_path w name) content
       [EExists (output_path w name); EPrint (gen_line name);
        EGenerate client (image_request prompt);
        EB64decode encoded;
        EOpenWrite (output_path w name) content;
        EPrint (ok_line name)], Next true).
Proof.
  intros Hfs Hgen Hurl Hb64 Hdec Hwr. unfold_proc. simpl. rewrite Hfs. simpl.
  rewrite Hgen. simpl. rewrite Hurl. simpl. rewrite Hb64. simpl.
  rewrite Hdec. simpl. rewrite Hwr. by trace_norm.
Qed.

(** No URL, inline data, and decoding raises. *)
Lemma generate_texture_decode_raises w client name prompt st first rest encoded e :
  fs st !! output_path w name = None →
  images_generate w client (image_request prompt) = inr {| data := first :: rest |} →
  truthy (url first) = None →
  b64_of first = Some encoded →
  b64decode w encoded = inl e →
  generate_texture w client name prompt st =
    (logged st
       [EExists (output_path w name); EPrint (gen_line name);
        EGenerate client (image_request prompt);
        EB64decode encoded;
        EPrint (failed_line name e)], Next false).
Proof.
  intros Hfs Hgen Hurl Hb64 Hdec. unfold_proc. simpl. rewrite Hfs. simpl.
  rewrite Hgen. simpl. rewrite Hurl. simpl. rewrite Hb64. simpl.
  rewrite Hdec. by trace_norm.
Qed.

(** No URL, inline data, and writing the file raises. *)
Lemma generate_texture_write_raises w client name prompt st first rest encoded content f :
  fs st !! output_path w name = None →
  images_generate w client (image_request prompt) = inr {| data := first :: rest |} →
  truthy (url first) = None →
  b64_of first = Some encoded →
  b64decode w encoded = inr content →
  open_write w (output_path w name) content = Some f →
  generate_texture w client name prompt st =
    (broken_off st (output_path w name) (left_behind f)
       [EExists (output_path w name); EPrint (gen_line name);
        EGenerate client (image_request prompt);
        EB64decode encoded;
        EOpenWrite (output_path w name) content;
        EPrint (failed_line name (raised f))], Next false).
Proof.
  intros Hfs Hgen Hurl Hb64 Hdec Hwr. unfold_proc. simpl. rewrite Hfs. simpl.
  rewrite Hgen. simpl. rewrite Hurl. simpl. rewrite Hb64. simpl.
  rewrite Hdec. simpl. rewrite Hwr.
  unfold broken_off. destruct (left_behind f); by trace_norm.
Qed.

(** Neither a URL nor inline data. *)
Lemma generate_texture_no_data w client name prompt st first rest :
  fs st !! output_path w name = None →
  images_generate w client (image_request prompt) = inr {| data := first :: rest |} →
  truthy (url first) = None →
  b64_of first = None →
  generate_texture w client name prompt st =
    (logged st
       [EExists (output_path w name); EPrint (gen_line name);
        EGenerate client (image_request prompt);
        EPrint no_data_line], Next false).
Proof.
  intros Hfs Hgen Hurl Hb64. unfold_proc. simpl. rewrite Hfs. simpl.
  rewrite Hgen. simpl. rewrite Hurl. simpl. rewrite Hb64. by trace_norm.
Qed.

(** ** Paths *)

Lemma string_length_app (s1 s2 : string) :
  String.length (s1 +:+ s2) = String.length s1 + String.length s2.
Proof.
  induction s1 as [|a s1 IH]; [done|].
  change (S (String.length (s1 +:+ s2)) = S (String.length s1 + String.length s2)).
  by rewrite IH.
Qed.

Lemma string_app_inj_r (s s1 s2 : string) : s1 +:+ s = s2 +:+ s → s1 = s2.
Proof.
  revert s2. induction s1 as [|a s1 IH]; intros [|b s2] Heq.
  - done.
  - apply (f_equal String.length) in Heq.
    rewrite !string_length_app in Heq. simpl in Heq. lia.
  - apply (f_equal String.length) in Heq.
    rewrite !string_length_app in Heq. simpl in Heq. lia.
  - change (String a (s1 +:+ s) = String b (s2 +:+ s)) in Heq.
    injection Heq as -> Heq. f_equal. by apply IH.
Qed.

Lemma output_path_inj w : Inj (=) (=) (output_path w).
Proof.
  intros n1 n2 Heq. unfold output_path, joinpath in Heq.
  apply String.app_inj in Heq. apply String.app_inj in Heq.
  by apply string_app_inj_r in Heq.
Qed.

(** ** What every call of [generate_texture] does *)

Ltac elem_cases H :=
  simpl in H;
  repeat (apply elem_of_cons in H as [-> | H]);
  try (by apply not_elem_of_nil in H).

Ltac step_facts_tac :=
  split; [ reflexivity | .. ]; simpl;
  [ reflexivity
  | reflexivity
  | reflexivity
  | repeat (apply List.Forall_cons; [by unfold body_line|]); apply List.Forall_nil
  | split; [discriminate || (intros; eauto) | intros [? ?]; congruence]
  | let Ho := fresh in
    intros Ho; first [discriminate Ho | rewrite ?lookup_insert_eq; by eexists]
  | let H := fresh in intros ? H; unfold requests in H; elem_cases H; eauto
  | let H := fresh in intros ? H; unfold writes in H; elem_cases H; eauto
  | intros p ? Hp; try assumption;
    match goal with
    | |- <[?q:=_]> _ !! p = _ =>
        destruct (decide (p = q)) as [-> | ?];
        [congruence | by rewrite lookup_insert_ne]
    end
  | intros p Hp; try reflexivity; by rewrite lookup_insert_ne ].

Lemma generate_texture_facts w client name prompt st st' r :
  generate_texture w client name prompt st = (st', r) →
  ∃ seg o, step_facts w name prompt st st' r seg o.
Proof.
  intros Hrun.
  destruct (fs st !! output_path w name) as [content|] eqn:Hfs.
  { rewrite (generate_texture_present _ _ _ _ _ _ Hfs) in Hrun.
    injection Hrun as <- <-. eexists _, AlreadyPresent. step_facts_tac. }
  destruct (images_generate w client (image_request prompt)) as [e | [[|first rest]]] eqn:Hgen.
  { rewrite (generate_texture_request_raises _ _ _ _ _ _ Hfs Hgen) in Hrun.
    injection Hrun as <- <-. eexists _, Failed. step_facts_tac. }
  { rewrite (generate_texture_no_item _ _ _ _ _ Hfs Hgen) in Hrun.
    injection Hrun as <- <-. eexists _, Failed. step_facts_tac. }
  destruct (truthy (url first)) as [link|] eqn:Hurl.
  { destruct (urlretrieve w link (output_path w name)) as [content | f] eqn:Hget.
    - rewrite (generate_texture_url _ _ _ _ _ _ _ _ _ Hfs Hgen Hurl Hget) in Hrun.
      injection Hrun as <- <-. eexists _, Saved. step_facts_tac.
    - rewrite (generate_texture_url_raises _ _ _ _ _ _ _ _ _ Hfs Hgen Hurl Hget) in Hrun.
      injection Hrun as <- <-. eexists _, Failed.
      unfold broken_off. destruct (left_behind f); step_facts_tac. }
  destruct (b64_of first) as [encoded|] eqn:Hb64.
  2: { rewrite (generate_texture_no_data _ _ _ _ _ _ _ Hfs Hgen Hurl Hb64) in Hrun.
       injection Hrun as <- <-. eexists _, Failed. step_facts_tac. }
  destruct (b64decode w encoded) as [e | content] eqn:Hdec.
  { rewrite (generate_texture_decode_raises _ _ _ _ _ _ _ _ _ Hfs Hgen Hurl Hb64 Hdec) in Hrun.
    injection Hrun as <- <-. eexists _, Failed. step_facts_tac. }
  destruct (open_write w (output_path w name) content) as [f|] eqn:Hwr.
  - rewrite (generate_texture_write_raises _ _ _ _ _ _ _ _ _ _ Hfs Hgen Hurl Hb64 Hdec Hwr) in Hrun.
    injection Hrun as <- <-. eexists _, Failed.
    unfold broken_off. destruct (left_behind f); step_facts_tac.
  - rewrite (generate_texture_b64 _ _ _ _ _ _ _ _ _ Hfs Hgen Hurl Hb64 Hdec Hwr) in Hrun.
    injection Hrun as <- <-. eexists _, Saved. step_facts_tac.
Qed.

(** ** The loop *)

Lemma success_failed_total os : success_total os + failed_total os = length os.
Proof.
  unfold success_total, failed_total.
  induction os as [|o os IH]; simpl; [done|]. destruct (success o); simpl; lia.
Qed.

Lemma for_items_cons_inv w client name prompt rest k st st' r :
  for_items w client ((name, prompt) :: rest) k st = (st', r) →
  ∃ st1 seg o,
    generate_texture w client name prompt st = (st1, Next (success o)) ∧
    step_facts w name prompt st st1 (Next (success o)) seg o ∧
    for_items w client rest (if success o then k + 1 else k) st1 = (st', r).
Proof.
  simpl. unfold bind at 1.
  destruct (generate_texture w client name prompt st) as [st1 r1] eqn:Hstep.
  destruct (generate_texture_facts _ _ _ _ _ _ _ Hstep) as (seg & o & Hf).
  pose proof (sf_result _ _ _ _ _ _ _ _ Hf) as ->.
  intros Hrest. by exists st1, seg, o.
Qed.

(** The loop only touches the output paths of its items, and it leaves
    every file that is already there as it is. *)
Lemma for_items_frame w client items : ∀ k st st' r,
  for_items w client items k st = (st', r) →
  (∀ p, p ∉ paths_of w items → fs st' !! p = fs st !! p) ∧
  (∀ p content, fs st !! p = Some content → fs st' !! p = Some content).
Proof.
  induction items as [|[name prompt] rest IH]; intros k st st' r Hrun.
  - injection Hrun as <- <-. done.
  - apply for_items_cons_inv in Hrun as (st1 & seg & o & _ & Hf & Hrest).
    apply IH in Hrest as [Hframe Hkeep]. split.
    + intros p Hp. simpl in Hp. apply not_elem_of_cons in Hp as [Hne Hp].
      rewrite (Hframe p Hp). by apply (sf_frame _ _ _ _ _ _ _ _ Hf).
    + intros p content Hp. apply Hkeep. by apply (sf_keep _ _ _ _ _ _ _ _ Hf).
Qed.

Lemma for_items_facts w client st0 items : ∀ k st st' r,
  NoDup items.*1 →
  (∀ spec, spec ∈ items → fs st !! output_path w spec.1 = fs st0 !! output_path w spec.1) →
  for_items w client items k st = (st', r) →
  ∃ segs,
    trace st' = trace st ++ concat segs ∧
    r = Next (k + success_total (outcomes (concat segs))) ∧
    Forall2 (item_run w client st0 st') items segs.
Proof.
  induction items as [|[name prompt] rest IH]; intros k st st' r Hnd Hbase Hrun.
  - injection Hrun as <- <-. exists []. simpl.
    rewrite app_nil_r. split_and!; [done | f_equal; unfold success_total; simpl; lia | constructor].
  - rewrite fmap_cons, NoDup_cons in Hnd. simpl in Hnd. destruct Hnd as [Hfresh Hnd].
    apply for_items_cons_inv in Hrun as (st1 & seg & o & Hstep & Hf & Hrest).
    assert (Hother : ∀ spec, spec ∈ rest → output_path w spec.1 ≠ output_path w name).
    { intros spec Hin Heq. apply output_path_inj in Heq. apply Hfresh.
      rewrite <- Heq. by apply (list_elem_of_fmap_2 fst). }
    assert (Hbase1 : ∀ spec, spec ∈ rest →
              fs st1 !! output_path w spec.1 = fs st0 !! output_path w spec.1).
    { intros spec Hin. rewrite (sf_frame _ _ _ _ _ _ _ _ Hf) by auto.
      apply Hbase. by right. }
    destruct (IH _ _ _ _ Hnd Hbase1 Hrest) as (segs & Htrace & Hr & Hall).
    exists (seg :: segs). split_and!.
    + rewrite Htrace, (sf_trace _ _ _ _ _ _ _ _ Hf). simpl. by rewrite app_assoc.
    + rewrite Hr. f_equal. simpl. rewrite outcomes_app, (sf_outcomes _ _ _ _ _ _ _ _ Hf).
      unfold success_total. simpl. destruct (success o); simpl; lia.
    + constructor; [|done].
      exists st, st1, o. split_and!; [apply Hbase; by left | done | done |].
      apply (for_items_frame _ _ _ _ _ _ _ Hrest).
      intros Hin. unfold paths_of in Hin. apply list_elem_of_fmap in Hin as (spec & Heq & Hin).
      by apply (Hother spec Hin).
Qed.

(** ** The whole process *)

Lemma TEXTURES_length : length TEXTURES = 8.
Proof. reflexivity. Qed.

Lemma TEXTURES_names :
  TEXTURES.*1 = ["industrial_floor"; "industrial_wall"; "ritual_floor"; "ritual_wall";
                 "organic_floor"; "organic_wall"; "neutral_floor"; "neutral_wall"].
Proof. reflexivity. Qed.

Lemma TEXTURES_NoDup_names : NoDup TEXTURES.*1.
Proof. rewrite TEXTURES_names. by apply (bool_decide_unpack _); vm_compute. Qed.

Lemma TEXTURES_NoDup_prompts : NoDup TEXTURES.*2.
Proof. by apply (bool_decide_unpack _); vm_compute. Qed.

Lemma main_no_key w st :
  credential w = None →
  main w st = (logged st [EPrint no_key_line; EPrint export_key_line], Stop (SystemExit 1)).
Proof.
  unfold credential, main. intros ->. unfold_proc. by trace_norm.
Qed.

Lemma main_mkdir_raises w st key e :
  credential w = Some key →
  mkdir w (OUTPUT_DIR w) = Some e →
  main w st = (logged st [EMkdir (OUTPUT_DIR w)], Stop (Raised e)).
Proof.
  unfold credential, main. intros -> Hmk. unfold_proc. simpl. by rewrite Hmk.
Qed.

Lemma main_client_raises w st key e :
  credential w = Some key →
  mkdir w (OUTPUT_DIR w) = None →
  OpenAI w key = Some e →
  main w st = (logged st (preamble w key), Stop (Raised e)).
Proof.
  unfold credential, main. intros -> Hmk Hcl. unfold_proc. simpl.
  rewrite Hmk. simpl. rewrite Hcl. by trace_norm.
Qed.

Local Opaque TEXTURES.

Lemma main_ready w st key stb r :
  credential w = Some key →
  mkdir w (OUTPUT_DIR w) = None →
  OpenAI w key = None →
  for_items w {| api_key := key |} TEXTURES 0 (logged st (preamble w key)) = (stb, r) →
  ∃ k, r = Next k ∧ main w st = (logged stb (epilogue k), Next tt).
Proof.
  unfold credential. intros Hkey Hmk Hcl Hloop.
  destruct (for_items_facts w _ st TEXTURES _ (logged st (preamble w key)) _ _
              TEXTURES_NoDup_names (λ _ _, eq_refl) Hloop)
    as (segs & _ & -> & _).
  eexists. split; [done|].
  unfold main. rewrite Hkey. unfold call_mkdir, call_OpenAI. rewrite Hmk, Hcl.
  unfold bind, print, emit, ret. simpl. rewrite <- !app_assoc. simpl.
  unfold logged, preamble in Hloop. rewrite Hloop.
  unfold epilogue, logged. simpl.
  destruct (_ <? _)%nat; simpl; rewrite <- ?app_assoc; reflexivity.
Qed.

Local Transparent TEXTURES.

Lemma script_not_installed w st :
  openai_installed w = false →
  script w st = (logged st [EPrint import_error_line], Stop (SystemExit 1)).
Proof. unfold script. intros ->. by unfold_proc. Qed.

Lemma script_installed w st :
  openai_installed w = true → script w st = main w st.
Proof.
  unfold script. intros ->. unfold bind, ret. by destruct (main w st) as [? []].
Qed.

Lemma item_run_ext w client st0 st0' st' st'' spec seg :
  fs st0 = fs st0' → fs st' = fs st'' →
  item_run w client st0 st' spec seg → item_run w client st0' st'' spec seg.
Proof.
  intros H0 H' (st1 & st2 & o & Hbase & Hstep & Hf & Hlast).
  exists st1, st2, o. by rewrite <- H0, <- H'.
Qed.

(** The run of a world in which the loop is reached. *)
Lemma run_ready w key :
  ready w key →
  ∃ st' segs,
    run w = (st', Next tt) ∧
    trace st' = preamble w key ++ concat segs
                ++ epilogue (success_total (outcomes (concat segs))) ∧
    Forall2 (item_run w {| api_key := key |} (boot w) st') TEXTURES segs ∧
    (∀ p, p ∉ paths_of w TEXTURES → fs st' !! p = files w !! p) ∧
    (∀ p content, files w !! p = Some content → fs st' !! p = Some content).
Proof.
  intros (Hinst & Hkey & Hmk & Hcl). unfold run. rewrite (script_installed _ _ Hinst).
  destruct (for_items w {| api_key := key |} TEXTURES 0 (logged (boot w) (preamble w key)))
    as [stb r] eqn:Hloop.
  destruct (main_ready _ _ _ _ _ Hkey Hmk Hcl Hloop) as (k & -> & ->).
  destruct (for_items_facts w _ (boot w) TEXTURES _ (logged (boot w) (preamble w key)) _ _
              TEXTURES_NoDup_names (λ _ _, eq_refl) Hloop) as (segs & Htrace & Hk & Hall).
  destruct (for_items_frame _ _ _ _ _ _ _ Hloop) as [Hframe Hkeep].
  injection Hk as ->.
  exists (logged stb (epilogue (success_total (outcomes (concat segs))))), segs.
  split_and!; [done | | | done | done].
  - simpl. rewrite Htrace. simpl. by rewrite <- ?app_assoc.
  - eapply Forall2_impl; [exact Hall|]. intros spec seg. by apply item_run_ext.
Qed.

Lemma run_cases w : ∃ st' r, run w = (st', r) ∧ run_case w st' r.
Proof.
  destruct (openai_installed w) eqn:Hinst.
  2: { unfold run. rewrite (script_not_installed _ _ Hinst).
       eexists _, _. split; [done | by constructor]. }
  destruct (credential w) as [key|] eqn:Hkey.
  2: { unfold run. rewrite (script_installed _ _ Hinst), (main_no_key _ _ Hkey).
       eexists _, _. split; [done | by constructor]. }
  destruct (mkdir w (OUTPUT_DIR w)) as [e|] eqn:Hmk.
  { unfold run. rewrite (script_installed _ _ Hinst), (main_mkdir_raises _ _ _ _ Hkey Hmk).
    eexists _, _. split; [done | by econstructor]. }
  destruct (OpenAI w key) as [e|] eqn:Hcl.
  { unfold run. rewrite (script_installed _ _ Hinst), (main_client_raises _ _ _ _ Hkey Hmk Hcl).
    eexists _, _. split; [done | by econstructor]. }
  destruct (run_ready w key) as (st' & segs & Hrun & _); [done|].
  exists st', (Next tt). split; [done | by econstructor].
Qed.

(** *** What the segments of the loop add up to *)

Section item_runs.
Context (w : World) (client : Client) (st0 st' : State).

Lemma item_runs_probes items segs :
  Forall2 (item_run w client st0 st') items segs →
  probes (concat segs) = paths_of w items.
Proof.
  induction 1 as [|spec seg items segs (st1 & st2 & o & _ & _ & Hf & _) _ IH]; [done|].
  simpl. rewrite probes_app, IH. by rewrite (sf_probes _ _ _ _ _ _ _ _ Hf).
Qed.

Lemma item_runs_outcomes items segs :
  Forall2 (item_run w client st0 st') items segs →
  length (outcomes (concat segs)) = length items.
Proof.
  induction 1 as [|spec seg items segs (st1 & st2 & o & _ & _ & Hf & _) _ IH]; [done|].
  simpl. rewrite outcomes_app, length_app, IH. by rewrite (sf_outcomes _ _ _ _ _ _ _ _ Hf).
Qed.

Lemma item_runs_lines items segs :
  Forall2 (item_run w client st0 st') items segs →
  Forall body_line (stdout (concat segs)).
Proof.
  induction 1 as [|spec seg items segs (st1 & st2 & o & _ & _ & Hf & _) _ IH];
    [constructor|].
  simpl. rewrite stdout_app. apply Forall_app. split; [|done].
  exact (sf_lines _ _ _ _ _ _ _ _ Hf).
Qed.

(** A request is only sent for a spec whose file was missing at start. *)
Lemma item_runs_requests items segs req :
  Forall2 (item_run w client st0 st') items segs →
  req ∈ requests (concat segs) →
  ∃ spec, spec ∈ items ∧ req = image_request spec.2 ∧
          fs st0 !! output_path w spec.1 = None.
Proof.
  induction 1 as [|spec seg items segs (st1 & st2 & o & Hbase & _ & Hf & _) _ IH];
    simpl; [by intros ?%not_elem_of_nil|].
  rewrite requests_app, elem_of_app. intros [Hin | Hin].
  - apply (sf_requests _ _ _ _ _ _ _ _ Hf) in Hin as [-> Hnone].
    exists spec. split_and!; [by left | done | by rewrite <- Hbase].
  - destruct (IH Hin) as (spec' & Hin' & Hreq & Hnone).
    exists spec'. split_and!; [by right | done | done].
Qed.

(** A file is only written for a spec whose file was missing at start. *)
Lemma item_runs_writes items segs p :
  Forall2 (item_run w client st0 st') items segs →
  p ∈ writes (concat segs) →
  ∃ spec, spec ∈ items ∧ p = output_path w spec.1 ∧ fs st0 !! p = None.
Proof.
  induction 1 as [|spec seg items segs (st1 & st2 & o & Hbase & _ & Hf & _) _ IH];
    simpl; [by intros ?%not_elem_of_nil|].
  rewrite writes_app, elem_of_app. intros [Hin | Hin].
  - apply (sf_writes _ _ _ _ _ _ _ _ Hf) in Hin as [-> Hnone].
    exists spec. split_and!; [by left | done | by rewrite <- Hbase].
  - destruct (IH Hin) as (spec' & Hin' & Hreq & Hnone).
    exists spec'. split_and!; [by right | done | done].
Qed.

(** The segment of a given spec. *)
Lemma item_runs_lookup items segs spec :
  Forall2 (item_run w client st0 st') items segs →
  spec ∈ items →
  ∃ seg, seg ∈ segs ∧ item_run w client st0 st' spec seg.
Proof.
  induction 1 as [|spec' seg items segs Hrun _ IH]; [by intros ?%not_elem_of_nil|].
  intros [-> | Hin]%elem_of_cons.
  - exists seg. split; [by left | done].
  - destruct (IH Hin) as (seg' & ? & ?). exists seg'. split; [by right | done].
Qed.

Lemma stdout_concat_elem segs seg line :
  seg ∈ segs → line ∈ stdout seg → line ∈ stdout (concat segs).
Proof.
  induction segs as [|s segs IH]; [by intros ?%not_elem_of_nil|].
  simpl. rewrite stdout_app, elem_of_app.
  intros [-> | Hin]%elem_of_cons Hline; [by left | right; by apply IH].
Qed.
End item_runs.

(** What a spec's segment is, once it is known what [generate_texture] does
    in every state that has at the output path what the start state has. *)
Lemma item_run_seg w client st0 st' spec seg (step : State → State * flow bool) :
  item_run w client st0 st' spec seg →
  (∀ st1, fs st1 !! output_path w spec.1 = fs st0 !! output_path w spec.1 →
          generate_texture w client spec.1 spec.2 st1 = step st1) →
  ∃ st1, trace (step st1).1 = trace st1 ++ seg ∧
         fs st' !! output_path w spec.1 = fs (step st1).1 !! output_path w spec.1 ∧
         fs st1 !! output_path w spec.1 = fs st0 !! output_path w spec.1.
Proof.
  intros (st1 & st2 & o & Hbase & Hstep & Hf & Hlast) Heval.
  exists st1. rewrite <- (Heval st1 Hbase), Hstep. simpl.
  split_and!; [exact (sf_trace _ _ _ _ _ _ _ _ Hf) | done | done].
Qed.

Lemma NoDup_snd_inj {A B} (l : list (A * B)) a1 a2 b :
  NoDup l.*2 → (a1, b) ∈ l → (a2, b) ∈ l → a1 = a2.
Proof.
  induction l as [|[a' b'] l IH]; [by intros _ ?%not_elem_of_nil|].
  rewrite fmap_cons, NoDup_cons. simpl. intros [Hfresh Hnd].
  intros [H1 | H1]%elem_of_cons [H2 | H2]%elem_of_cons.
  - congruence.
  - injection H1 as -> ->. exfalso. apply Hfresh. by apply (list_elem_of_fmap_2 snd _ (a2, b')).
  - injection H2 as -> ->. exfalso. apply Hfresh. by apply (list_elem_of_fmap_2 snd _ (a1, b')).
  - by apply IH.
Qed.

Lemma image_request_inj : Inj (=) (=) image_request.
Proof. intros p1 p2 Heq. by injection Heq. Qed.

(** The trace of a run that reaches the loop, seen through each filter. *)
Lemma epilogue_silent k :
  requests (epilogue k) = [] ∧ writes (epilogue k) = [] ∧ probes (epilogue k) = [] ∧
  outcomes (epilogue k) = [].
Proof. unfold epilogue. by destruct (_ <? _)%nat. Qed.

Lemma preamble_silent w key :
  requests (preamble w key) = [] ∧ writes (preamble w key) = [] ∧
  probes (preamble w key) = [] ∧ outcomes (preamble w key) = [].
Proof. done. Qed.

Lemma stdout_epilogue k :
  stdout (epilogue k) =
    [""; complete_line k] ++ (if (k <? length TEXTURES)%nat then [retry_line] else []).
Proof. unfold epilogue. by destruct (_ <? _)%nat. Qed.

Lemma omap_concat_elem {A B} (f : A → option B) (segs : list (list A)) x :
  x ∈ omap f (concat segs) → ∃ seg, seg ∈ segs ∧ x ∈ omap f seg.
Proof.
  induction segs as [|s segs IH]; simpl; [by intros ?%not_elem_of_nil|].
  rewrite omap_app, elem_of_app. intros [Hin | Hin].
  - exists s. split; [by left | done].
  - destruct (IH Hin) as (seg & ? & ?). exists seg. split; [by right | done].
Qed.

Lemma Forall2_elem_r {A B} (R : A → B → Prop) l k y :
  Forall2 R l k → y ∈ k → ∃ x, x ∈ l ∧ R x y.
Proof.
  induction 1 as [|x y' l k HR _ IH]; [by intros ?%not_elem_of_nil|].
  intros [-> | Hin]%elem_of_cons.
  - exists x. split; [by left | done].
  - destruct (IH Hin) as (x' & ? & ?). exists x'. split; [by right | done].
Qed.

Lemma NoDup_fst_inj {A B} (l : list (A * B)) a b1 b2 :
  NoDup l.*1 → (a, b1) ∈ l → (a, b2) ∈ l → b1 = b2.
Proof.
  induction l as [|[a' b'] l IH]; [by intros _ ?%not_elem_of_nil|].
  rewrite fmap_cons, NoDup_cons. simpl. intros [Hfresh Hnd].
  intros [H1 | H1]%elem_of_cons [H2 | H2]%elem_of_cons.
  - congruence.
  - injection H1 as -> ->. exfalso. apply Hfresh. by apply (list_elem_of_fmap_2 fst _ (a', b2)).
  - injection H2 as -> ->. exfalso. apply Hfresh. by apply (list_elem_of_fmap_2 fst _ (a', b1)).
  - by apply IH.
Qed.

(** In a run of the loop over the table, a write to the output path of a
    spec of the table happens in the segment of that spec. *)
Lemma table_write_segment w client st0 st' segs name prompt :
  Forall2 (item_run w client st0 st') TEXTURES segs →
  (name, prompt) ∈ TEXTURES →
  output_path w name ∈ writes (concat segs) →
  ∃ seg, item_run w client st0 st' (name, prompt) seg ∧ output_path w name ∈ writes seg.
Proof.
  intros Hall Hin (seg & Hseg & Hp)%omap_concat_elem.
  destruct (Forall2_elem_r _ _ _ _ Hall Hseg) as ([name' prompt'] & Hin' & Hitem).
  pose proof Hitem as (st1 & st2 & o & _ & _ & Hf & _).
  destruct (sf_writes _ _ _ _ _ _ _ _ Hf _ Hp) as [Heq _].
  apply output_path_inj in Heq. simpl in Heq. subst name'.
  assert (prompt' = prompt) as ->
    by (eapply NoDup_fst_inj; [apply TEXTURES_NoDup_names | done | done]).
  by exists seg.
Qed.

(** ** The contract of the script *)

(** *** Idempotence on present files *)

(** C1. For every texture spec whose output file is on disk at the start of
    the run (and so is still there when the spec is processed): processing
    the spec, in any state in which the file is there, only probes the path,
    prints the skip notice and returns success, a line that records the
    outcome already-present; and in the whole run the file keeps its bytes,
    no generation request is sent for its prompt, nothing is downloaded or
    written to its path, and, when the run gets to the end, the skip notice
    is on standard output. *)
Theorem C1_present_file_is_skipped w name prompt content :
  (name, prompt) ∈ TEXTURES →
  files w !! output_path w name = Some content →
  (∀ client st,
     fs st !! output_path w name = Some content →
     generate_texture w client name prompt st =
       (logged st [EExists (output_path w name); EPrint (skip_line name)], Next true)) ∧
  outcome_of_line (skip_line name) = Some AlreadyPresent ∧
  (∀ st' r,
     run w = (st', r) →
     fs st' !! output_path w name = Some content ∧
     (image_request prompt ∉ requests (trace st')) ∧
     (output_path w name ∉ writes (trace st')) ∧
     (r = Next tt → skip_line name ∈ stdout (trace st'))).
Proof.
  intros Hin Hfile. split_and!.
  - intros client st Hfs. by apply generate_texture_present with content.
  - reflexivity.
  - intros st' r Hrun. destruct (run_cases w) as (st0 & r0 & Hrun0 & Hcase).
    rewrite Hrun in Hrun0. injection Hrun0 as <- <-.
    destruct Hcase as [ | | | | key st' Hready Hrun' ];
      try (split_and!; [done | by intros ?%not_elem_of_nil
                        | by intros ?%not_elem_of_nil | done]).
    destruct (run_ready w key Hready) as (st2 & segs & Hrun2 & Htrace & Hall & _ & Hkeep).
    rewrite Hrun in Hrun2. injection Hrun2 as <-.
    destruct (epilogue_silent (success_total (outcomes (concat segs))))
      as (Hreq & Hwr & _ & _).
    split_and!.
    + by apply Hkeep.
    + rewrite Htrace, !requests_app, Hreq, app_nil_r. simpl.
      intros (spec & Hspec & Heq & Hnone)%(item_runs_requests _ _ _ _ _ _ _ Hall).
      apply image_request_inj in Heq. destruct spec as [name' prompt']. simpl in *.
      subst prompt'.
      assert (name' = name) as -> by (eapply NoDup_snd_inj;
                                      [apply TEXTURES_NoDup_prompts | done | done]).
      congruence.
    + rewrite Htrace, !writes_app, Hwr, app_nil_r. simpl.
      intros (spec & Hspec & Heq & Hnone)%(item_runs_writes _ _ _ _ _ _ _ Hall).
      simpl in Hnone. congruence.
    + intros _.
      destruct (item_runs_lookup _ _ _ _ _ _ _ Hall Hin) as (seg & Hseg & Hitem).
      destruct (item_run_seg _ _ _ _ _ _
                  (λ st1, (logged st1 [EExists (output_path w name); EPrint (skip_line name)],
                           Next true)) Hitem) as (st1 & Hseg_eq & _).
      { intros st1 Hbase. simpl in Hbase.
        apply generate_texture_present with content. by rewrite Hbase. }
      simpl in Hseg_eq. apply app_inv_head in Hseg_eq.
      rewrite Htrace, !stdout_app. apply elem_of_app. right. apply elem_of_app. left.
      apply stdout_concat_elem with seg; [done|]. rewrite <- Hseg_eq. simpl. by left.
Qed.

Lemma C1_present_file_is_skipped_witness :
  fs (run skip_world).1 !! output_path skip_world "ritual_wall" = Some [x01; x02] ∧
  (image_request sample_spec.2 ∉ requests (trace (run skip_world).1)).
Proof.
  destruct (C1_present_file_is_skipped skip_world sample_spec.1 sample_spec.2 [x01; x02])
    as (_ & _ & Hrun).
  - apply (bool_decide_unpack _). vm_compute. reflexivity.
  - vm_compute. reflexivity.
  - destruct (Hrun (run skip_world).1 (run skip_world).2) as (Hfs & Hreq & _).
    + by destruct (run skip_world).
    + split; [exact Hfs | exact Hreq].
Defined.

(** *** The credential *)

(** C4. With the credential variable unset, [main] prints the error and the
    remediation line and exits with status 1; the process ends with exit
    status 1, the files are as they were, and its trace has nothing but
    prints: no request, no download, no [mkdir], no probe of an output path.
    When the import guard passes, these two lines are all of standard
    output; when it does not, [main] is not entered and the import error is
    all of standard output. *)
Theorem C4_unset_credential_is_fatal w :
  environ w !! "OPENAI_API_KEY" = None →
  (∀ st, main w st =
         (logged st [EPrint no_key_line; EPrint export_key_line], Stop (SystemExit 1))) ∧
  ∃ st', run w = (st', Stop (SystemExit 1)) ∧
         exit_status (run w).2 = 1 ∧
         fs st' = files w ∧
         only_prints (trace st') ∧
         Forall (λ ev, is_network ev = false ∧ is_disk_write ev = false) (trace st') ∧
         requests (trace st') = [] ∧
         (openai_installed w = true →
          stdout (trace st') = [no_key_line; export_key_line]) ∧
         (openai_installed w = false →
          stdout (trace st') = [import_error_line]).
Proof.
  intros Henv.
  assert (Hkey : credential w = None) by (unfold credential; by rewrite Henv).
  split; [intros st; by apply main_no_key|].
  unfold run. destruct (openai_installed w) eqn:Hinst.
  - rewrite (script_installed _ _ Hinst), (main_no_key _ _ Hkey).
    eexists. split_and!; try done. by repeat constructor.
  - rewrite (script_not_installed _ _ Hinst).
    eexists. split_and!; try done. by repeat constructor.
Qed.

Lemma C4_unset_credential_is_fatal_witness :
  run no_key_world =
    (logged (boot no_key_world) [EPrint no_key_line; EPrint export_key_line],
     Stop (SystemExit 1)).
Proof.
  destruct (C4_unset_credential_is_fatal no_key_world) as [Hmain _].
  - vm_compute. reflexivity.
  - unfold run. rewrite script_installed by reflexivity. apply Hmain.
Defined.

(** C10. With the credential variable set to the empty string, [main]
    prints the same two lines and exits with status 1, the whole process
    behaves exactly as in the world where the variable is unset, and it ends
    with exit status 1 after doing nothing but print. *)
Theorem C10_empty_credential_is_unset w :
  environ w !! "OPENAI_API_KEY" = Some "" →
  (∀ st, main w st =
         (logged st [EPrint no_key_line; EPrint export_key_line], Stop (SystemExit 1))) ∧
  run w = run (unset_key w) ∧
  ∃ st', run w = (st', Stop (SystemExit 1)) ∧
         exit_status (run w).2 = 1 ∧
         fs st' = files w ∧
         only_prints (trace st').
Proof.
  intros Henv.
  assert (Hkey : credential w = None) by (unfold credential; by rewrite Henv).
  assert (Hkey' : credential (unset_key w) = None).
  { unfold credential, unset_key. simpl. by rewrite lookup_delete_eq. }
  split; [intros st; by apply main_no_key|].
  unfold run. destruct (openai_installed w) eqn:Hinst.
  - rewrite (script_installed w _ Hinst), (script_installed (unset_key w) _ Hinst).
    rewrite (main_no_key _ _ Hkey), (main_no_key _ _ Hkey').
    split; [done|]. eexists. by split_and!.
  - rewrite (script_not_installed w _ Hinst), (script_not_installed (unset_key w) _ Hinst).
    split; [done|]. eexists. by split_and!.
Qed.

Lemma C10_empty_credential_is_unset_witness :
  run empty_key_world = run (unset_key empty_key_world).
Proof.
  destruct (C10_empty_credential_is_unset empty_key_world) as (_ & Hsame & _).
  - vm_compute. reflexivity.
  - exact Hsame.
Defined.

(** *** The response *)

(** C9. When the response has a URL and [urlretrieve] raises (it is the
    call that fetches and writes), [generate_texture] prints the failure
    with the name and the error and returns failure; between the download
    and that line nothing happens, so the inline data is neither decoded
    nor written, whatever [b64_json] holds. *)
Theorem C9_failed_download_has_no_fallback w client name prompt st first rest link f :
  fs st !! output_path w name = None →
  images_generate w client (image_request prompt) = inr {| data := first :: rest |} →
  truthy (url first) = Some link →
  urlretrieve w link (output_path w name) = inr f →
  ∃ st' seg,
    generate_texture w client name prompt st = (st', Next false) ∧
    trace st' = trace st ++ seg ∧
    seg = [EExists (output_path w name); EPrint (gen_line name);
           EGenerate client (image_request prompt);
           EUrlretrieve link (output_path w name);
           EPrint (failed_line name (raised f))] ∧
    decodes seg = [] ∧ opens seg = [] ∧
    outcomes seg = [Failed] ∧
    fs st' !! output_path w name = left_behind f.
Proof.
  intros Hfs Hgen Hurl Hget.
  rewrite (generate_texture_url_raises _ _ _ _ _ _ _ _ _ Hfs Hgen Hurl Hget).
  eexists _, _. split_and!; try reflexivity.
  - unfold broken_off. by destruct (left_behind f).
  - unfold broken_off. destruct (left_behind f); simpl; [by rewrite lookup_insert_eq | done].
Qed.

Lemma C9_failed_download_has_no_fallback_witness :
  b64_of {| url := Some "https://img.test/x"; b64_json := AttrStr "iVBORw==" |}
    = Some "iVBORw==" ∧
  ∃ st' seg,
    generate_texture broken_link_world {| api_key := "sk-test" |}
      sample_spec.1 sample_spec.2 (boot broken_link_world) = (st', Next false) ∧
    trace st' = seg ∧ decodes seg = [].
Proof.
  split; [reflexivity|].
  destruct (C9_failed_download_has_no_fallback broken_link_world {| api_key := "sk-test" |}
              sample_spec.1 sample_spec.2 (boot broken_link_world)
              {| url := Some "https://img.test/x"; b64_json := AttrStr "iVBORw==" |} []
              "https://img.test/x"
              {| left_behind := None;
                 raised := Exn "HTTPError" "HTTP Error 403: Forbidden" |})
    as (st' & seg & Hstep & Htrace & _ & Hdec & _).
  - vm_compute. reflexivity.
  - reflexivity.
  - reflexivity.
  - reflexivity.
  - exists st', seg. split_and!; [exact Hstep | exact Htrace | exact Hdec].
Defined.

(** A spec of the table whose file is missing and whose processing, with
    the file missing, always ends in failure after the calls [evs], none of
    which touches the disk: the lines of [evs] are on standard output,
    nothing is written to the path of the spec when [evs] writes nothing,
    and the path is still missing at the end. *)
Lemma run_clean_failure w key name prompt evs :
  ready w key →
  (name, prompt) ∈ TEXTURES →
  files w !! output_path w name = None →
  (∀ st, fs st !! output_path w name = None →
         generate_texture w {| api_key := key |} name prompt st
         = (logged st evs, Next false)) →
  ∃ st', run w = (st', Next tt) ∧
         (∀ line, line ∈ stdout evs → line ∈ stdout (trace st')) ∧
         (writes evs = [] → output_path w name ∉ writes (trace st')) ∧
         fs st' !! output_path w name = None.
Proof.
  intros Hready Hin Hfile Heval.
  destruct (run_ready w key Hready) as (st' & segs & Hrun & Htrace & Hall & _ & _).
  exists st'. split; [done|].
  destruct (item_runs_lookup _ _ _ _ _ _ _ Hall Hin) as (seg & Hseg & Hitem).
  destruct (item_run_seg _ _ _ _ _ _ (λ st1, (logged st1 evs, Next false)) Hitem)
    as (st1 & Hseg_eq & Hlast & Hbase).
  { intros st1 Hbase. simpl in Hbase. apply Heval. by rewrite Hbase. }
  simpl in Hseg_eq, Hlast, Hbase. apply app_inv_head in Hseg_eq. subst evs.
  destruct (epilogue_silent (success_total (outcomes (concat segs)))) as (_ & Hwr & _ & _).
  split_and!.
  - intros line Hline. rewrite Htrace, !stdout_app.
    apply elem_of_app. right. apply elem_of_app. left.
    by apply stdout_concat_elem with seg.
  - intros Hquiet. rewrite Htrace, !writes_app, Hwr, app_nil_r. simpl.
    intros (seg' & Hitem' & Hp)%(table_write_segment _ _ _ _ _ _ _ Hall Hin).
    destruct (item_run_seg _ _ _ _ _ _ (λ st1, (logged st1 seg, Next false)) Hitem')
      as (st1' & Hseg_eq' & _).
    { intros ? Hbase'. simpl in Hbase'. apply Heval. by rewrite Hbase'. }
    simpl in Hseg_eq'. apply app_inv_head in Hseg_eq'. rewrite <- Hseg_eq', Hquiet in Hp.
    by apply not_elem_of_nil in Hp.
  - by rewrite Hlast, Hbase.
Qed.

(** C5, as stated, fails: a response with no image at all carries neither a
    URL nor inline data, and for it the script prints the line of the
    handler, with the message of [IndexError], and never the explicit
    no-image-data error. *)
Lemma C5_no_image_no_explicit_error :
  images_generate no_image_world {| api_key := "sk-test" |} (image_request sample_spec.2)
    = inr {| data := [] |} ∧
  lacks_image_data {| data := [] |} = true ∧
  stdout (trace (generate_texture no_image_world {| api_key := "sk-test" |}
                   sample_spec.1 sample_spec.2 (boot no_image_world)).1)
    = ["  [GEN] ritual_wall...";
       "  [ERR] Failed to generate ritual_wall: list index out of range"] ∧
  (no_data_line ∉ stdout (trace (run no_image_world).1)).
Proof.
  split_and!; [reflexivity | reflexivity | reflexivity |].
  apply (bool_decide_unpack _). vm_compute. reflexivity.
Qed.

(** C5, amended.  When the response to the request for a spec whose file is
    missing has a first image with no usable URL ([None] or empty) and no
    usable inline data (attribute missing, [None] or empty), or has no image
    at all, [generate_texture] sends the request, prints one error line,
    which records the outcome failed, returns failure and leaves the files
    as they are.  The line is the explicit no-image-data error exactly when
    the response has a first image; for a response with no image it is the
    line of the handler with the message of [IndexError].  In a whole run
    that reaches the loop, for a spec of the table whose file is missing at
    start, the line is on standard output, nothing is downloaded or written
    to the spec's path, and the path is still missing at the end. *)
Theorem C5_lacking_response_fails w client name prompt response :
  images_generate w client (image_request prompt) = inr response →
  lacks_image_data response = true →
  (∀ st, fs st !! output_path w name = None →
         generate_texture w client name prompt st =
           (logged st [EExists (output_path w name); EPrint (gen_line name);
                       EGenerate client (image_request prompt);
                       EPrint (lacking_line name response)], Next false)) ∧
  outcome_of_line (lacking_line name response) = Some Failed ∧
  (lacking_line name response = no_data_line ↔ data response ≠ []) ∧
  no_data_line = "  [ERR] No image data in response" ∧
  (∀ key, ready w key → client = {| api_key := key |} →
          (name, prompt) ∈ TEXTURES →
          files w !! output_path w name = None →
          ∃ st', run w = (st', Next tt) ∧
                 lacking_line name response ∈ stdout (trace st') ∧
                 (output_path w name ∉ writes (trace st')) ∧
                 fs st' !! output_path w name = None).
Proof.
  intros Hgen Hlacks.
  assert (Heval : ∀ st, fs st !! output_path w name = None →
            generate_texture w client name prompt st =
              (logged st [EExists (output_path w name); EPrint (gen_line name);
                          EGenerate client (image_request prompt);
                          EPrint (lacking_line name response)], Next false)).
  { intros st Hfs. destruct response as [[|first rest]].
    - by apply generate_texture_no_item.
    - unfold lacks_image_data in Hlacks. simpl in Hlacks.
      destruct (truthy (url first)) eqn:Hurl; [done|].
      destruct (b64_of first) eqn:Hb64; [done|].
      by apply generate_texture_no_data with first rest. }
  split_and!; [exact Heval | | | reflexivity |].
  - by destruct response as [[|first rest]].
  - destruct response as [[|first rest]]; simpl; split; done.
  - intros key Hready -> Hin Hfile.
    destruct (run_clean_failure w key name prompt _ Hready Hin Hfile Heval)
      as (st' & Hrun & Hlines & Hwrites & Hfs).
    exists st'. split_and!; [done | | by apply Hwrites | done].
    apply Hlines. simpl. right. by left.
Qed.

Lemma C5_lacking_response_fails_witness :
  (∃ st', run empty_answer_world = (st', Next tt) ∧
          no_data_line ∈ stdout (trace st') ∧
          fs st' !! output_path empty_answer_world sample_spec.1 = None) ∧
  (∃ st', run no_image_world = (st', Next tt) ∧
          failed_line sample_spec.1 (Exn "IndexError" "list index out of range")
            ∈ stdout (trace st') ∧
          fs st' !! output_path no_image_world sample_spec.1 = None).
Proof.
  split.
  - destruct (C5_lacking_response_fails empty_answer_world {| api_key := "sk-test" |}
                sample_spec.1 sample_spec.2
                {| data := [ {| url := None; b64_json := AttrNone |} ] |})
      as (_ & _ & _ & _ & Hrun).
    + reflexivity.
    + reflexivity.
    + destruct (Hrun "sk-test") as (st' & Hst & Hline & _ & Hfs).
      * repeat split.
      * reflexivity.
      * apply (bool_decide_unpack _). vm_compute. reflexivity.
      * vm_compute. reflexivity.
      * exists st'. split_and!; [exact Hst | exact Hline | exact Hfs].
  - destruct (C5_lacking_response_fails no_image_world {| api_key := "sk-test" |}
                sample_spec.1 sample_spec.2 {| data := [] |})
      as (_ & _ & _ & _ & Hrun).
    + reflexivity.
    + reflexivity.
    + destruct (Hrun "sk-test") as (st' & Hst & Hline & _ & Hfs).
      * repeat split.
      * reflexivity.
      * apply (bool_decide_unpack _). vm_compute. reflexivity.
      * vm_compute. reflexivity.
      * exists st'. split_and!; [exact Hst | exact Hline | exact Hfs].
Defined.

(** C6. For a response that came back (with a first image) for a spec whose
    file is missing: when the image has a URL, the URL is downloaded to the
    output path and, whether the download succeeds or raises, nothing is
    decoded and the script opens no file itself, whatever [b64_json] holds;
    when the download succeeds the file holds the downloaded bytes and the
    result is success.  When the image has no URL and has inline data that
    decodes and can be written, nothing is downloaded, the decoded bytes are
    written to the output path and the result is success. *)
Theorem C6_url_preferred w client name prompt st first rest :
  fs st !! output_path w name = None →
  images_generate w client (image_request prompt) = inr {| data := first :: rest |} →
  (∀ link, truthy (url first) = Some link →
     (∃ st' r seg,
        generate_texture w client name prompt st = (st', r) ∧
        trace st' = trace st ++ seg ∧
        downloads seg = [link] ∧ writes seg = [output_path w name] ∧
        decodes seg = [] ∧ opens seg = []) ∧
     (∀ content, urlretrieve w link (output_path w name) = inl content →
        generate_texture w client name prompt st =
          (stored st (output_path w name) content
             [EExists (output_path w name); EPrint (gen_line name);
              EGenerate client (image_request prompt);
              EUrlretrieve link (output_path w name);
              EPrint (ok_line name)], Next true))) ∧
  (truthy (url first) = None →
   ∀ encoded content,
     b64_of first = Some encoded →
     b64decode w encoded = inr content →
     open_write w (output_path w name) content = None →
     generate_texture w client name prompt st =
       (stored st (output_path w name) content
          [EExists (output_path w name); EPrint (gen_line name);
           EGenerate client (image_request prompt);
           EB64decode encoded;
           EOpenWrite (output_path w name) content;
           EPrint (ok_line name)], Next true) ∧
     downloads [EExists (output_path w name); EPrint (gen_line name);
                EGenerate client (image_request prompt);
                EB64decode encoded;
                EOpenWrite (output_path w name) content;
                EPrint (ok_line name)] = []).
Proof.
  intros Hfs Hgen. split.
  - intros link Hurl. split.
    + destruct (urlretrieve w link (output_path w name)) as [content | f] eqn:Hget.
      * rewrite (generate_texture_url _ _ _ _ _ _ _ _ _ Hfs Hgen Hurl Hget).
        eexists _, _, _. by split_and!.
      * rewrite (generate_texture_url_raises _ _ _ _ _ _ _ _ _ Hfs Hgen Hurl Hget).
        eexists _, _, _. split; [done|].
        split; [unfold broken_off; by destruct (left_behind f)|]. by split_and!.
    + intros content Hget. by apply generate_texture_url with first rest.
  - intros Hurl encoded content Hb64 Hdec Hwr. split; [|done].
    by apply generate_texture_b64 with first rest.
Qed.

Lemma C6_url_preferred_witness :
  (generate_texture nice_world {| api_key := "sk-test" |} "ritual_wall" sample_spec.2
     (boot nice_world)).2 = Next true ∧
  (generate_texture inline_world {| api_key := "sk-test" |} "ritual_wall" sample_spec.2
     (boot inline_world)).2 = Next true.
Proof.
  split.
  - destruct (C6_url_preferred nice_world {| api_key := "sk-test" |} "ritual_wall"
                sample_spec.2 (boot nice_world)
                {| url := Some ("https://img.test/" +:+ sample_spec.2);
                   b64_json := AttrNone |} []) as [Hurl _].
    + vm_compute. reflexivity.
    + reflexivity.
    + destruct (Hurl ("https://img.test/" +:+ sample_spec.2)) as [_ Hok].
      * reflexivity.
      * rewrite (Hok sample_bytes); reflexivity.
  - destruct (C6_url_preferred inline_world {| api_key := "sk-test" |} "ritual_wall"
                sample_spec.2 (boot inline_world)
                {| url := None; b64_json := AttrStr "iVBORw==" |} []) as [_ Hinline].
    + vm_compute. reflexivity.
    + reflexivity.
    + destruct (Hinline eq_refl "iVBORw==" sample_bytes) as [Hok _].
      * reflexivity.
      * reflexivity.
      * reflexivity.
      * rewrite Hok. reflexivity.
Defined.

(** *** Failures of one texture *)

Lemma trace_broken_off st path content evs :
  trace (broken_off st path content evs) = trace st ++ evs.
Proof. unfold broken_off. by destruct content. Qed.

Lemma generate_texture_raises w client name prompt ph e st :
  raises w client name prompt ph e →
  fs st !! output_path w name = None →
  ∃ st' seg,
    generate_texture w client name prompt st = (st', Next false) ∧
    trace st' = trace st ++ seg ∧
    last (stdout seg) = Some (failed_line name e) ∧
    outcomes seg = [Failed].
Proof.
  intros Hraises Hfs.
  destruct Hraises as [e Hgen | Hgen | first rest link f Hgen Hurl Hget
                      | first rest encoded e Hgen Hurl Hb64 Hdec
                      | first rest encoded content f Hgen Hurl Hb64 Hdec Hwr].
  - rewrite (generate_texture_request_raises _ _ _ _ _ _ Hfs Hgen).
    eexists _, _. by split_and!.
  - rewrite (generate_texture_no_item _ _ _ _ _ Hfs Hgen).
    eexists _, _. by split_and!.
  - rewrite (generate_texture_url_raises _ _ _ _ _ _ _ _ _ Hfs Hgen Hurl Hget).
    eexists _, _. split; [done|]. split; [apply trace_broken_off|]. by split.
  - rewrite (generate_texture_decode_raises _ _ _ _ _ _ _ _ _ Hfs Hgen Hurl Hb64 Hdec).
    eexists _, _. by split_and!.
  - rewrite (generate_texture_write_raises _ _ _ _ _ _ _ _ _ _ Hfs Hgen Hurl Hb64 Hdec Hwr).
    eexists _, _. split; [done|]. split; [apply trace_broken_off|]. by split.
Qed.

Lemma generate_texture_returns w client name prompt st :
  ∃ st' ok, generate_texture w client name prompt st = (st', Next ok).
Proof.
  destruct (generate_texture w client name prompt st) as [st' r] eqn:Hstep.
  destruct (generate_texture_facts _ _ _ _ _ _ _ Hstep) as (seg & o & Hf).
  exists st', (success o). by rewrite (sf_result _ _ _ _ _ _ _ _ Hf).
Qed.

(** The trace of a run that reaches the loop probes every output path of
    the table, once and in the order of the table, and records one outcome
    per spec. *)
Lemma run_ready_probes w key st' segs :
  trace st' = preamble w key ++ concat segs
              ++ epilogue (success_total (outcomes (concat segs))) →
  Forall2 (item_run w {| api_key := key |} (boot w) st') TEXTURES segs →
  probes (trace st') = paths_of w TEXTURES ∧
  outcomes (trace st') = outcomes (concat segs) ∧
  length (outcomes (trace st')) = length TEXTURES.
Proof.
  intros Htrace Hall.
  destruct (epilogue_silent (success_total (outcomes (concat segs)))) as (_ & _ & Hpr & Hout).
  destruct (preamble_silent w key) as (_ & _ & Hpr0 & Hout0).
  assert (Houts : outcomes (trace st') = outcomes (concat segs)).
  { by rewrite Htrace, !outcomes_app, Hout, Hout0, app_nil_r. }
  split_and!; [|done|].
  - rewrite Htrace, !probes_app, Hpr, Hpr0, app_nil_r, app_nil_l.
    by apply item_runs_probes with {| api_key := key |} (boot w) st'.
  - rewrite Houts. by apply item_runs_outcomes with w {| api_key := key |} (boot w) st'.
Qed.

(** C3. [generate_texture] always returns a result to the loop.  When, for
    a spec whose file is missing, the request, the subscript of the
    response, the download, the decoding or the writing raises [e], the
    call ends with the line that names the spec and gives [str(e)], records
    the outcome failed and returns failure.  In a whole run that reaches the
    loop, that line is on standard output, every output path of the table is
    still probed, once and in the order of the table, one outcome is
    recorded per spec, and the process runs to its end. *)
Theorem C3_failure_is_caught_and_batch_goes_on w client name prompt ph e :
  raises w client name prompt ph e →
  (∀ name' prompt' st, ∃ st' ok,
      generate_texture w client name' prompt' st = (st', Next ok)) ∧
  (∀ st, fs st !! output_path w name = None →
         ∃ st' seg,
           generate_texture w client name prompt st = (st', Next false) ∧
           trace st' = trace st ++ seg ∧
           last (stdout seg) = Some (failed_line name e) ∧
           outcomes seg = [Failed]) ∧
  failed_line name e = "  [ERR] Failed to generate " +:+ name +:+ ": " +:+ exn_str e ∧
  (∀ key, ready w key → client = {| api_key := key |} →
          (name, prompt) ∈ TEXTURES →
          files w !! output_path w name = None →
          ∃ st', run w = (st', Next tt) ∧
                 failed_line name e ∈ stdout (trace st') ∧
                 probes (trace st') = paths_of w TEXTURES ∧
                 length (outcomes (trace st')) = length TEXTURES).
Proof.
  intros Hraises. split_and!.
  - intros. apply generate_texture_returns.
  - intros st Hfs. by apply generate_texture_raises with ph.
  - reflexivity.
  - intros key Hready -> Hin Hfile.
    destruct (run_ready w key Hready) as (st' & segs & Hrun & Htrace & Hall & _ & _).
    exists st'. split; [done|].
    destruct (run_ready_probes _ _ _ _ Htrace Hall) as (Hprobes & _ & Hlen).
    split_and!; [|done|done].
    destruct (item_runs_lookup _ _ _ _ _ _ _ Hall Hin) as (seg & Hseg & Hitem).
    destruct Hitem as (st1 & st2 & o & Hbase & Hstep & Hf & _).
    simpl in Hbase, Hstep, Hf.
    destruct (generate_texture_raises _ _ _ _ _ _ st1 Hraises)
      as (st2' & seg' & Hstep' & Htr' & Hlast & _); [by rewrite Hbase|].
    rewrite Hstep in Hstep'. injection Hstep' as <- _.
    rewrite (sf_trace _ _ _ _ _ _ _ _ Hf) in Htr'. apply app_inv_head in Htr'. subst seg'.
    rewrite Htrace, !stdout_app. apply elem_of_app. right. apply elem_of_app. left.
    apply stdout_concat_elem with seg; [done|].
    apply last_Some in Hlast as (l' & ->). apply elem_of_app. right. by left.
Qed.

Lemma C3_failure_is_caught_and_batch_goes_on_witness :
  ∃ st', run down_world = (st', Next tt) ∧
         failed_line "ritual_wall" (Exn "APIConnectionError" "Connection error.")
           ∈ stdout (trace st') ∧
         probes (trace st') = paths_of down_world TEXTURES.
Proof.
  destruct (C3_failure_is_caught_and_batch_goes_on down_world {| api_key := "sk-test" |}
              sample_spec.1 sample_spec.2 Request
              (Exn "APIConnectionError" "Connection error.")) as (_ & _ & _ & Hrun).
  - apply raises_request. reflexivity.
  - destruct (Hrun "sk-test") as (st' & Hst & Hline & Hprobes & _).
    + by vm_compute.
    + reflexivity.
    + apply (bool_decide_unpack _). vm_compute. reflexivity.
    + vm_compute. reflexivity.
    + exists st'. split_and!; [exact Hst | exact Hline | exact Hprobes].
Defined.

(** *** Every spec, once, with one outcome *)

(** C7. The table has 8 specs with pairwise different names.  A run that
    reaches the loop ends normally, and its trace is the preamble, then one
    segment per spec of the table, in the order of the table, then the
    epilogue: the segment of a spec probes the output path of that spec,
    once, and records exactly one outcome, which is already-present exactly
    when the file was there at start; so the output paths are probed once
    each in the order of the table, and 8 outcomes are recorded. *)
Theorem C7_every_spec_one_outcome w key :
  ready w key →
  length TEXTURES = 8 ∧ NoDup TEXTURES.*1 ∧
  ∃ st' segs,
    run w = (st', Next tt) ∧
    trace st' = preamble w key ++ concat segs
                ++ epilogue (success_total (outcomes (concat segs))) ∧
    Forall2 (λ spec seg,
               probes seg = [output_path w spec.1] ∧
               ∃ o, outcomes seg = [o] ∧
                    (o = AlreadyPresent ↔ is_Some (files w !! output_path w spec.1)))
            TEXTURES segs ∧
    probes (trace st') = paths_of w TEXTURES ∧
    outcomes (trace st') = outcomes (concat segs) ∧
    length (outcomes (trace st')) = 8.
Proof.
  intros Hready. split; [reflexivity|]. split; [apply TEXTURES_NoDup_names|].
  destruct (run_ready w key Hready) as (st' & segs & Hrun & Htrace & Hall & _ & _).
  destruct (run_ready_probes _ _ _ _ Htrace Hall) as (Hprobes & Houts & Hlen).
  exists st', segs. split_and!; try done.
  eapply Forall2_impl; [exact Hall|].
  intros spec seg (st1 & st2 & o & Hbase & _ & Hf & _). split.
  - exact (sf_probes _ _ _ _ _ _ _ _ Hf).
  - exists o. split; [exact (sf_outcomes _ _ _ _ _ _ _ _ Hf)|].
    rewrite (sf_present _ _ _ _ _ _ _ _ Hf), Hbase. reflexivity.
Qed.

Lemma C7_every_spec_one_outcome_witness :
  ∃ st', run skip_world = (st', Next tt) ∧
         probes (trace st') = paths_of skip_world TEXTURES ∧
         outcomes (trace st') =
           [Saved; Saved; Saved; AlreadyPresent; Saved; Saved; Saved; Saved].
Proof.
  destruct (C7_every_spec_one_outcome skip_world "sk-test")
    as (_ & _ & st' & segs & Hrun & _ & _ & Hprobes & _ & _).
  - by vm_compute.
  - exists st'. split_and!; [exact Hrun | exact Hprobes |].
    change st' with (st', @Next unit tt).1. rewrite <- Hrun. vm_compute. reflexivity.
Defined.

(** *** The summary *)

Lemma failed_total_pos os : 0 < failed_total os ↔ Failed ∈ os.
Proof.
  unfold failed_total. induction os as [|o os IH]; simpl.
  - split; [lia | by intros ?%not_elem_of_nil].
  - rewrite elem_of_cons. destruct o; simpl.
    + rewrite IH. split; [by right | by intros [? | ?]].
    + rewrite IH. split; [by right | by intros [? | ?]].
    + split; [by left | lia].
Qed.

Lemma present_count (w : World) (items : list (string * string)) :
  length (List.filter (present w) items)
  + length (List.filter (λ spec, negb (present w spec)) items) = length items.
Proof.
  induction items as [|spec items IH]; simpl; [done|].
  destruct (present w spec); simpl; lia.
Qed.

Lemma already_present_count w client st0 st' items segs :
  fs st0 = files w →
  Forall2 (item_run w client st0 st') items segs →
  skipped_total (outcomes (concat segs)) = length (List.filter (present w) items).
Proof.
  unfold skipped_total.
  intros Hfs. induction 1 as [|spec seg items segs (st1 & st2 & o & Hb & _ & Hf & _) _ IH];
    [done|].
  simpl. rewrite outcomes_app, (sf_outcomes _ _ _ _ _ _ _ _ Hf). simpl.
  pose proof (sf_present _ _ _ _ _ _ _ _ Hf) as Hp. rewrite Hb, Hfs in Hp.
  unfold present at 1. destruct (files w !! output_path w spec.1) as [c|].
  - assert (o = AlreadyPresent) as -> by (apply Hp; by eexists). simpl. by rewrite IH.
  - destruct o; simpl; try by rewrite IH. destruct Hp as [Hp _].
    by destruct (Hp eq_refl).
Qed.

(** When every spec is present or served through a URL, every spec
    succeeds and has its file at the end. *)
Lemma item_runs_all_served w client st0 st' items segs :
  fs st0 = files w →
  Forall2 (item_run w client st0 st') items segs →
  (∀ spec, spec ∈ items → present w spec = true ∨ served_by_url w client spec = true) →
  success_total (outcomes (concat segs)) = length items ∧
  (∀ spec, spec ∈ items → is_Some (fs st' !! output_path w spec.1)).
Proof.
  intros Hfs. induction 1 as [|spec seg items segs Hitem _ IH]; intros Hok.
  { split; [done | by intros ? ?%not_elem_of_nil]. }
  destruct IH as [IHn IHf]; [intros; apply Hok; by right|].
  destruct Hitem as (st1 & st2 & o & Hb & Hstep & Hf & Hlast).
  assert (success o = true ∧ is_Some (fs st2 !! output_path w spec.1)) as [Ho Hsome].
  { rewrite Hfs in Hb.
    destruct (fs st1 !! output_path w spec.1) as [c|] eqn:Hfs1.
    - split.
      + assert (o = AlreadyPresent) as -> by (apply (sf_present _ _ _ _ _ _ _ _ Hf); by eexists).
        done.
      + exists c. by apply (sf_keep _ _ _ _ _ _ _ _ Hf).
    - destruct (Hok spec) as [Hp | Hs]; [by left | |].
      { unfold present in Hp. by rewrite <- Hb in Hp. }
      unfold served_by_url in Hs.
      destruct (images_generate w client (image_request spec.2))
        as [? | [[|first rest]]] eqn:Hgen; try done.
      destruct (truthy (url first)) as [link|] eqn:Hurl; try done.
      destruct (urlretrieve w link (output_path w spec.1)) as [content|] eqn:Hget; try done.
      rewrite (generate_texture_url _ _ _ _ _ _ _ _ _ Hfs1 Hgen Hurl Hget) in Hstep.
      injection Hstep as <- Ho. split; [done|].
      simpl. rewrite lookup_insert_eq. by eexists. }
  split.
  - simpl. rewrite outcomes_app, (sf_outcomes _ _ _ _ _ _ _ _ Hf).
    unfold success_total in *. simpl. rewrite Ho. simpl. by rewrite IHn.
  - intros spec' [-> | Hin]%elem_of_cons; [by rewrite Hlast | by apply IHf].
Qed.

Lemma paths_of_filter_NoDup w (P : string * string → bool) items :
  NoDup items.*1 → NoDup (paths_of w (List.filter P items)).
Proof.
  induction items as [|spec items IH]; [constructor|].
  rewrite fmap_cons, NoDup_cons. intros [Hfresh Hnd]. simpl.
  destruct (P spec); [|by apply IH].
  simpl. apply NoDup_cons. split; [|by apply IH].
  unfold paths_of. intros (spec' & Heq & Hin)%list_elem_of_fmap.
  apply output_path_inj in Heq. apply Hfresh. rewrite Heq.
  apply (list_elem_of_fmap_2 fst). apply list_elem_of_In, filter_In in Hin as [Hin _].
  by apply list_elem_of_In.
Qed.

(** The files created by a run in which every spec succeeds through a URL
    or is present: the output paths of the specs that were missing. *)
Lemma created_all_served w st' :
  (∀ p, p ∉ paths_of w TEXTURES → fs st' !! p = files w !! p) →
  (∀ spec, spec ∈ TEXTURES → is_Some (fs st' !! output_path w spec.1)) →
  size (created w st') = length (List.filter (λ spec, negb (present w spec)) TEXTURES).
Proof.
  intros Hframe Hsome.
  assert (Heq : created w st'
                = list_to_set (paths_of w (List.filter (λ spec, negb (present w spec)) TEXTURES))).
  { apply set_eq. intros p. unfold created.
    rewrite elem_of_difference, !elem_of_dom, elem_of_list_to_set.
    unfold paths_of. rewrite list_elem_of_fmap. split.
    - intros [Hin Hout].
      destruct (decide (p ∈ paths_of w TEXTURES)) as [Hp | Hp].
      + apply list_elem_of_fmap in Hp as (spec & -> & Hspec).
        exists spec. split; [done|]. apply list_elem_of_In, filter_In.
        split; [by apply list_elem_of_In|].
        unfold present. destruct (files w !! output_path w spec.1); [|done].
        exfalso. apply Hout. by eexists.
      + rewrite (Hframe _ Hp) in Hin. done.
    - intros (spec & -> & Hin). apply list_elem_of_In, filter_In in Hin as [Hin Habs].
      apply list_elem_of_In in Hin. split; [by apply Hsome|].
      unfold present in Habs. destruct (files w !! output_path w spec.1); [done|].
      by intros [? ?]. }
  rewrite Heq, size_list_to_set.
  - unfold paths_of. apply length_map.
  - apply paths_of_filter_NoDup, TEXTURES_NoDup_names.
Qed.

(** C2. A run that reaches the loop ends normally; its standard output is
    the three header lines, the lines of the batch, an empty line, the
    summary line with the success count [k] out of 8, and then the retry
    guidance exactly when [k] is below 8.  The count [k] is the number of
    recorded outcomes that are saved or already-present, out of 8 outcomes,
    and is below 8 exactly when some outcome is failed.  When every spec is
    present or served through a URL that downloads, the summary is 8/8, no
    guidance is printed, and the created files are the output files of the
    specs that were missing: 8 with none present at start, 5 (and 3 skips)
    with three present.  When exactly one outcome is failed, the summary is
    7/8 and the guidance is printed. *)
Theorem C2_summary_counts_successes w key :
  ready w key →
  ∃ st' body os k,
    run w = (st', Next tt) ∧
    os = outcomes (trace st') ∧
    k = success_total os ∧
    stdout (trace st') =
      [target_line w; total_line; ""] ++ body ++ [""; complete_line k]
      ++ (if (k <? 8)%nat then [retry_line] else []) ∧
    Forall body_line body ∧
    length os = 8 ∧
    k + failed_total os = 8 ∧
    complete_line k = "Complete! Generated " +:+ pretty k +:+ "/8 textures" ∧
    (retry_line ∈ stdout (trace st') ↔ k < 8) ∧
    (k < 8 ↔ Failed ∈ os) ∧
    ((∀ spec, spec ∈ TEXTURES →
              present w spec = true ∨ served_by_url w {| api_key := key |} spec = true) →
     complete_line k = "Complete! Generated 8/8 textures" ∧
     (retry_line ∉ stdout (trace st')) ∧
     size (created w st') + length (List.filter (present w) TEXTURES) = 8 ∧
     skipped_total os = length (List.filter (present w) TEXTURES) ∧
     (length (List.filter (present w) TEXTURES) = 0 → size (created w st') = 8) ∧
     (length (List.filter (present w) TEXTURES) = 3 →
      size (created w st') = 5 ∧ skipped_total os = 3)) ∧
    (failed_total os = 1 →
     complete_line k = "Complete! Generated 7/8 textures" ∧
     retry_line ∈ stdout (trace st')).
Proof.
  intros Hready.
  destruct (run_ready w key Hready) as (st' & segs & Hrun & Htrace & Hall & Hframe & _).
  destruct (run_ready_probes _ _ _ _ Htrace Hall) as (_ & Houts & Hlen).
  set (os := outcomes (trace st')) in *. set (k := success_total os).
  assert (Hout : stdout (trace st') =
                 [target_line w; total_line; ""] ++ stdout (concat segs)
                 ++ [""; complete_line k] ++ (if (k <? 8)%nat then [retry_line] else [])).
  { rewrite Htrace, !stdout_app, stdout_epilogue, <- Houts. reflexivity. }
  assert (Hbody : Forall body_line (stdout (concat segs)))
    by (by apply item_runs_lines with w {| api_key := key |} (boot w) st' TEXTURES).
  assert (Hsum : k + failed_total os = 8)
    by (unfold k; rewrite success_failed_total; exact Hlen).
  assert (Hretry : retry_line ∈ stdout (trace st') ↔ k < 8).
  { rewrite Hout. split.
    - intros [Hin | [Hin | [Hin | Hin]%elem_of_app]%elem_of_app]%elem_of_app.
      + by repeat (apply elem_of_cons in Hin as [Hin | Hin]; [discriminate Hin|]);
          apply not_elem_of_nil in Hin.
      + rewrite Forall_forall in Hbody. by apply Hbody in Hin.
      + by repeat (apply elem_of_cons in Hin as [Hin | Hin]; [discriminate Hin|]);
          apply not_elem_of_nil in Hin.
      + destruct (k <? 8)%nat eqn:Hk; [by apply Nat.ltb_lt | by apply not_elem_of_nil in Hin].
    - intros Hk%Nat.ltb_lt. rewrite Hk.
      apply elem_of_app. right. apply elem_of_app. right. apply elem_of_app. right. by left. }
  exists st', (stdout (concat segs)), os, k.
  split_and!; try done.
  - rewrite <- failed_total_pos. lia.
  - intros Hok.
    destruct (item_runs_all_served w _ (boot w) _ _ _ eq_refl Hall Hok) as [Hk Hsome].
    pose proof (created_all_served w st' Hframe Hsome) as Hcreated.
    pose proof (present_count w TEXTURES) as Hcount. rewrite TEXTURES_length in Hcount.
    pose proof (already_present_count w _ (boot w) _ _ _ eq_refl Hall) as Hskip.
    rewrite <- Houts in Hk, Hskip. fold os in Hk, Hskip. fold k in Hk.
    change (length TEXTURES) with 8 in Hk.
    split_and!.
    + by rewrite Hk.
    + rewrite Hretry. lia.
    + lia.
    + done.
    + lia.
    + lia.
  - intros Hone. assert (k = 7) as Hk by lia. split; [by rewrite Hk|].
    apply Hretry. lia.
Qed.

Lemma C2_summary_counts_successes_witness :
  (∃ st', run nice_world = (st', Next tt) ∧
          "Complete! Generated 8/8 textures" ∈ stdout (trace st') ∧
          size (created nice_world st') = 8) ∧
  (∃ st', run three_world = (st', Next tt) ∧
          "Complete! Generated 8/8 textures" ∈ stdout (trace st') ∧
          size (created three_world st') = 5) ∧
  (∃ st', run one_failure_world = (st', Next tt) ∧
          "Complete! Generated 7/8 textures" ∈ stdout (trace st') ∧
          retry_line ∈ stdout (trace st')).
Proof.
  split_and!.
  - destruct (C2_summary_counts_successes nice_world "sk-test")
      as (st' & body & os & k & Hrun & Hos & Hk & Hout & _ & _ & _ & _ & _ & _ & Hall & _).
    { by vm_compute. }
    destruct Hall as (Hline & _ & _ & _ & Hnone & _).
    { apply Forall_forall. apply (bool_decide_unpack _). vm_compute. reflexivity. }
    exists st'. split_and!; [exact Hrun | | apply Hnone; reflexivity].
    rewrite Hout, Hline. apply elem_of_app. right. apply elem_of_app. right.
    apply elem_of_app. left. right. left.
  - destruct (C2_summary_counts_successes three_world "sk-test")
      as (st' & body & os & k & Hrun & Hos & Hk & Hout & _ & _ & _ & _ & _ & _ & Hall & _).
    { by vm_compute. }
    destruct Hall as (Hline & _ & _ & _ & _ & Hthree).
    { apply Forall_forall. apply (bool_decide_unpack _). vm_compute. reflexivity. }
    exists st'. split_and!; [exact Hrun | | apply Hthree; reflexivity].
    rewrite Hout, Hline. apply elem_of_app. right. apply elem_of_app. right.
    apply elem_of_app. left. right. left.
  - destruct (C2_summary_counts_successes one_failure_world "sk-test")
      as (st' & body & os & k & Hrun & Hos & Hk & Hout & _ & _ & _ & _ & _ & _ & _ & Hone).
    { by vm_compute. }
    destruct Hone as [Hline Hretry].
    { rewrite Hos. replace st' with (run one_failure_world).1 by (by rewrite Hrun).
      vm_compute. reflexivity. }
    exists st'. split_and!; [exact Hrun | | exact Hretry].
    rewrite Hout, Hline. apply elem_of_app. right. apply elem_of_app. right.
    apply elem_of_app. left. right. left.
Defined.

(** *** How the process ends *)

(** C8, as stated, fails: with the credential set and the [openai] package
    missing, the import guard prints its error and exits with status 1
    before [main] is entered; no spec is processed. *)
Lemma C8_credential_present_yet_error_exit :
  credential no_package_world = Some "sk-test" ∧
  run no_package_world =
    (logged (boot no_package_world) [EPrint import_error_line], Stop (SystemExit 1)) ∧
  exit_status (run no_package_world).2 = 1 ∧
  probes (trace (run no_package_world).1) = [].
Proof. by vm_compute. Qed.

(** With the credential set and the package there, an exception of [mkdir]
    is not caught either. *)
Lemma mkdir_failure_ends_the_process :
  credential read_only_world = Some "sk-test" ∧
  openai_installed read_only_world = true ∧
  exit_status (run read_only_world).2 = 1 ∧
  probes (trace (run read_only_world).1) = [].
Proof. by vm_compute. Qed.

(** With probes that answer, the process exits normally (status 0) exactly
    when the [openai] package can be imported, the credential is set and
    not empty, and neither the creation of the output directory nor the
    construction of the client raises; it then processes the whole table
    and prints the summary.  Every other run ends with status 1 with no
    spec processed. *)
Lemma run_exit_status w :
  ((∃ key, ready w key) ↔ exit_status (run w).2 = 0) ∧
  (∀ key, ready w key →
     ∃ st' body k,
       run w = (st', Next tt) ∧
       probes (trace st') = paths_of w TEXTURES ∧
       k = success_total (outcomes (trace st')) ∧
       length (outcomes (trace st')) = 8 ∧
       stdout (trace st') =
         [target_line w; total_line; ""] ++ body ++ [""; complete_line k]
         ++ (if (k <? 8)%nat then [retry_line] else []) ∧
       Forall body_line body) ∧
  (openai_installed w = false →
   run w = (logged (boot w) [EPrint import_error_line], Stop (SystemExit 1))) ∧
  (openai_installed w = true → credential w = None →
   run w = (logged (boot w) [EPrint no_key_line; EPrint export_key_line],
            Stop (SystemExit 1))) ∧
  (exit_status (run w).2 ≠ 0 →
   exit_status (run w).2 = 1 ∧ probes (trace (run w).1) = [] ∧
   fs (run w).1 = files w).
Proof.
  split_and!.
  - split.
    + intros [key Hready].
      destruct (run_ready w key Hready) as (st' & segs & Hrun & _). by rewrite Hrun.
    + destruct (run_cases w) as (st' & r & Hrun & Hcase). rewrite Hrun.
      destruct Hcase as [ | | | | key st' Hready _ ]; try discriminate 1.
      intros _. by exists key.
  - intros key Hready.
    destruct (run_ready w key Hready) as (st' & segs & Hrun & Htrace & Hall & _ & _).
    destruct (run_ready_probes _ _ _ _ Htrace Hall) as (Hprobes & Houts & Hlen).
    exists st', (stdout (concat segs)), (success_total (outcomes (trace st'))).
    split_and!; try done.
    + rewrite Houts, Htrace, !stdout_app, stdout_epilogue. reflexivity.
    + by apply item_runs_lines with w {| api_key := key |} (boot w) st' TEXTURES.
  - intros Hinst. unfold run. by apply script_not_installed.
  - intros Hinst Hkey. unfold run. rewrite (script_installed _ _ Hinst).
    by apply main_no_key.
  - destruct (run_cases w) as (st' & r & Hrun & Hcase). rewrite Hrun.
    destruct Hcase as [ | | | | key st' Hready _ ]; intros Hstatus;
      [split_and!; reflexivity.. | exfalso; apply Hstatus; reflexivity].
Qed.

(** *** With a probe that can raise *)

Lemma raising_generate_texture_ok e client name prompt st :
  Raising.exists_raises e (output_path (Raising.world e) name) = None →
  Raising.generate_texture e client name prompt st
  = generate_texture (Raising.world e) client name prompt st.
Proof.
  intros Hok. unfold Raising.generate_texture, generate_texture,
    Raising.path_exists, path_exists. by rewrite Hok.
Qed.

Lemma raising_generate_texture_raises e client name prompt st x :
  Raising.exists_raises e (output_path (Raising.world e) name) = Some x →
  Raising.generate_texture e client name prompt st
  = (logged st [EExists (output_path (Raising.world e) name)], Stop (Raised x)).
Proof.
  intros Hx. unfold Raising.generate_texture, Raising.path_exists. rewrite Hx.
  by unfold_proc.
Qed.

(** Every probe of [items] answers, or one of them raises. *)
Lemma probes_answer_or_raise e (items : list (string * string)) :
  (∀ spec, spec ∈ items →
           Raising.exists_raises e (output_path (Raising.world e) spec.1) = None) ∨
  (∃ spec x, spec ∈ items ∧
             Raising.exists_raises e (output_path (Raising.world e) spec.1) = Some x).
Proof.
  induction items as [|spec items [IH | (spec' & x & Hin & Hx)]].
  - left. by intros ? ?%not_elem_of_nil.
  - destruct (Raising.exists_raises e (output_path (Raising.world e) spec.1))
      as [x|] eqn:Hx.
    + right. exists spec, x. split; [by left | done].
    + left. intros spec' [-> | Hin]%elem_of_cons; [done | by apply IH].
  - right. exists spec', x. split; [by right | done].
Qed.

Lemma raising_for_items_ok e client items : ∀ k st,
  (∀ spec, spec ∈ items →
           Raising.exists_raises e (output_path (Raising.world e) spec.1) = None) →
  Raising.for_items e client items k st = for_items (Raising.world e) client items k st.
Proof.
  induction items as [|[name prompt] rest IH]; intros k st Hok; [done|].
  simpl. unfold bind at 1 2.
  rewrite raising_generate_texture_ok by (apply (Hok (name, prompt)); by left).
  destruct (generate_texture (Raising.world e) client name prompt st) as [st1 [ok|x]];
    [|done].
  apply IH. intros spec Hin. apply Hok. by right.
Qed.

(** A probe that raises ends the loop: the exception leaves it. *)
Lemma raising_for_items_raises e client items : ∀ k st,
  (∃ spec x, spec ∈ items ∧
             Raising.exists_raises e (output_path (Raising.world e) spec.1) = Some x) →
  ∃ st' x, Raising.for_items e client items k st = (st', Stop (Raised x)).
Proof.
  induction items as [|[name prompt] rest IH]; intros k st (spec & x & Hin & Hx).
  { by apply not_elem_of_nil in Hin. }
  simpl. unfold bind at 1.
  destruct (Raising.exists_raises e (output_path (Raising.world e) name)) as [y|] eqn:Hy.
  - rewrite (raising_generate_texture_raises _ _ _ _ _ _ Hy). by eexists _, _.
  - rewrite (raising_generate_texture_ok _ _ _ _ _ Hy).
    destruct (generate_texture_returns (Raising.world e) client name prompt st)
      as (st1 & ok & ->).
    apply IH. exists spec, x. split; [|done].
    apply elem_of_cons in Hin as [-> | Hin]; [|done].
    simpl in Hx. congruence.
Qed.

Local Opaque TEXTURES.

(** [main], step by step. *)
Lemma raising_main_unfold e st :
  Raising.main e st =
    match credential (Raising.world e) with
    | None => (logged st [EPrint no_key_line; EPrint export_key_line], Stop (SystemExit 1))
    | Some key =>
        match mkdir (Raising.world e) (OUTPUT_DIR (Raising.world e)) with
        | Some x => (logged st [EMkdir (OUTPUT_DIR (Raising.world e))], Stop (Raised x))
        | None =>
            match OpenAI (Raising.world e) key with
            | Some x => (logged st (preamble (Raising.world e) key), Stop (Raised x))
            | None =>
                match Raising.for_items e {| api_key := key |} TEXTURES 0
                        (logged st (preamble (Raising.world e) key)) with
                | (stb, Next k) => (logged stb (epilogue k), Next tt)
                | (stb, Stop x) => (stb, Stop x)
                end
            end
        end
    end.
Proof.
  unfold Raising.main, credential.
  destruct (truthy (environ (Raising.world e) !! "OPENAI_API_KEY")) as [key|].
  2: { unfold_proc. by trace_norm. }
  unfold call_mkdir, call_OpenAI.
  destruct (mkdir (Raising.world e) (OUTPUT_DIR (Raising.world e))) as [x|].
  { by unfold_proc. }
  destruct (OpenAI (Raising.world e) key) as [x|].
  { unfold_proc. by trace_norm. }
  unfold bind, print, emit, ret. simpl. rewrite <- !app_assoc. simpl.
  unfold logged, preamble.
  destruct (Raising.for_items _ _ _ _ _) as [stb [k|x]]; [|done].
  unfold epilogue. simpl.
  destruct (_ <? _)%nat; simpl; rewrite <- ?app_assoc; reflexivity.
Qed.

Local Transparent TEXTURES.

Lemma raising_script_unfold e st :
  Raising.script e st =
    if openai_installed (Raising.world e)
    then Raising.main e st
    else (logged st [EPrint import_error_line], Stop (SystemExit 1)).
Proof.
  unfold Raising.script. destruct (openai_installed (Raising.world e)).
  - unfold bind, ret. by destruct (Raising.main e st) as [? []].
  - by unfold_proc.
Qed.

(** With probes that answer, the process is the one of the world. *)
Lemma raising_run_ok e :
  Raising.probes_answer e → Raising.run e = run (Raising.world e).
Proof.
  intros Hok. unfold Raising.run, run. rewrite raising_script_unfold.
  destruct (openai_installed (Raising.world e)) eqn:Hinst.
  2: { by rewrite (script_not_installed _ _ Hinst). }
  rewrite (script_installed _ _ Hinst), raising_main_unfold.
  destruct (credential (Raising.world e)) as [key|] eqn:Hkey.
  2: { by rewrite (main_no_key _ _ Hkey). }
  destruct (mkdir (Raising.world e) (OUTPUT_DIR (Raising.world e))) as [x|] eqn:Hmk.
  { by rewrite (main_mkdir_raises _ _ _ _ Hkey Hmk). }
  destruct (OpenAI (Raising.world e) key) as [x|] eqn:Hcl.
  { by rewrite (main_client_raises _ _ _ _ Hkey Hmk Hcl). }
  rewrite (raising_for_items_ok _ _ _ _ _ Hok).
  destruct (for_items _ _ _ _ _) as [stb r] eqn:Hloop.
  destruct (main_ready _ _ _ _ _ Hkey Hmk Hcl Hloop) as (k & -> & ->). done.
Qed.

(** With the package imported, the credential set, the output directory
    created and the client constructed, a probe [exists()] that raises is
    not caught, and the process ends on it with status 1 before the
    summary. *)
Lemma probe_failure_ends_the_process :
  ready nice_world "sk-test" ∧
  Raising.run locked_env =
    ({| fs := ∅;
        trace := preamble nice_world "sk-test"
                 ++ [EExists (output_path nice_world "industrial_floor")] |},
     Stop (Raised (Exn "PermissionError" "[Errno 13] Permission denied"))) ∧
  exit_status (Raising.run locked_env).2 = 1.
Proof. by vm_compute. Qed.

(** C8, amended.  The process exits normally (status 0) exactly when the
    [openai] package can be imported, the credential is set and not empty,
    and none of the creation of the output directory, the construction of
    the client and the probes of the eight output paths raises.  In that
    case it processes the whole table, in order, and prints the progress
    lines and, last but for the guidance, the summary with the success
    count.  A missing package makes it exit at once with status 1 after the
    import error, and so does, when the package is there, a missing or
    empty credential after the credential error.  A probe that raises is
    not caught and ends the process; every run that does not exit normally
    ends with status 1. *)
Theorem C8_exit_status_with_probes e :
  (((∃ key, ready (Raising.world e) key) ∧ Raising.probes_answer e)
   ↔ exit_status (Raising.run e).2 = 0) ∧
  (∀ key, ready (Raising.world e) key → Raising.probes_answer e →
     ∃ st' body k,
       Raising.run e = (st', Next tt) ∧
       probes (trace st') = paths_of (Raising.world e) TEXTURES ∧
       k = success_total (outcomes (trace st')) ∧
       length (outcomes (trace st')) = 8 ∧
       stdout (trace st') =
         [target_line (Raising.world e); total_line; ""] ++ body ++ [""; complete_line k]
         ++ (if (k <? 8)%nat then [retry_line] else []) ∧
       Forall body_line body) ∧
  (openai_installed (Raising.world e) = false →
   Raising.run e = (logged (boot (Raising.world e)) [EPrint import_error_line],
                    Stop (SystemExit 1))) ∧
  (openai_installed (Raising.world e) = true → credential (Raising.world e) = None →
   Raising.run e = (logged (boot (Raising.world e))
                      [EPrint no_key_line; EPrint export_key_line],
                    Stop (SystemExit 1))) ∧
  (∀ key spec x,
     ready (Raising.world e) key → spec ∈ TEXTURES →
     Raising.exists_raises e (output_path (Raising.world e) spec.1) = Some x →
     ∃ st' x', Raising.run e = (st', Stop (Raised x'))) ∧
  (exit_status (Raising.run e).2 ≠ 0 → exit_status (Raising.run e).2 = 1).
Proof.
  assert (Hraise : ∀ key spec x,
            ready (Raising.world e) key → spec ∈ TEXTURES →
            Raising.exists_raises e (output_path (Raising.world e) spec.1) = Some x →
            ∃ st' x', Raising.run e = (st', Stop (Raised x'))).
  { intros key spec x (Hinst & Hkey & Hmk & Hcl) Hin Hx.
    unfold Raising.run. rewrite raising_script_unfold, Hinst, raising_main_unfold.
    rewrite Hkey, Hmk, Hcl.
    destruct (raising_for_items_raises e {| api_key := key |} TEXTURES 0
                (logged (boot (Raising.world e)) (preamble (Raising.world e) key)))
      as (st' & x' & ->); [by exists spec, x|].
    by exists st', x'. }
  assert (Hstatus : exit_status (Raising.run e).2 = 0 ∨ exit_status (Raising.run e).2 = 1).
  { destruct (probes_answer_or_raise e TEXTURES) as [Hok | (spec & x & Hin & Hx)].
    - rewrite (raising_run_ok _ Hok).
      destruct (run_exit_status (Raising.world e)) as (_ & _ & _ & _ & Hone).
      destruct (exit_status (run (Raising.world e)).2) as [|n] eqn:Hs; [by left|].
      right. by destruct Hone.
    - unfold Raising.run. rewrite raising_script_unfold.
      destruct (openai_installed (Raising.world e)) eqn:Hinst; [|by right].
      rewrite raising_main_unfold.
      destruct (credential (Raising.world e)) as [key|] eqn:Hkey; [|by right].
      destruct (mkdir (Raising.world e) (OUTPUT_DIR (Raising.world e))) eqn:Hmk;
        [by right|].
      destruct (OpenAI (Raising.world e) key) eqn:Hcl; [by right|].
      destruct (raising_for_items_raises e {| api_key := key |} TEXTURES 0
                  (logged (boot (Raising.world e)) (preamble (Raising.world e) key)))
        as (st' & x' & ->); [by exists spec, x|]. by right. }
  split_and!.
  - split.
    + intros [[key Hready] Hok]. rewrite (raising_run_ok _ Hok).
      apply (run_exit_status (Raising.world e)). by exists key.
    + intros Hzero.
      destruct (probes_answer_or_raise e TEXTURES) as [Hok | (spec & x & Hin & Hx)].
      * split; [|exact Hok]. rewrite (raising_run_ok _ Hok) in Hzero.
        by apply (run_exit_status (Raising.world e)).
      * exfalso. revert Hzero. unfold Raising.run. rewrite raising_script_unfold.
        destruct (openai_installed (Raising.world e)) eqn:Hinst; [|discriminate].
        rewrite raising_main_unfold.
        destruct (credential (Raising.world e)) as [key|] eqn:Hkey; [|discriminate].
        destruct (mkdir (Raising.world e) (OUTPUT_DIR (Raising.world e))) eqn:Hmk;
          [discriminate|].
        destruct (OpenAI (Raising.world e) key) eqn:Hcl; [discriminate|].
        destruct (raising_for_items_raises e {| api_key := key |} TEXTURES 0
                    (logged (boot (Raising.world e)) (preamble (Raising.world e) key)))
          as (st' & x' & ->); [by exists spec, x|]. discriminate.
  - intros key Hready Hok. rewrite (raising_run_ok _ Hok).
    destruct (run_exit_status (Raising.world e)) as (_ & Hbatch & _).
    exact (Hbatch key Hready).
  - intros Hinst. unfold Raising.run. by rewrite raising_script_unfold, Hinst.
  - intros Hinst Hkey. unfold Raising.run.
    by rewrite raising_script_unfold, Hinst, raising_main_unfold, Hkey.
  - exact Hraise.
  - intros Hne. by destruct Hstatus.
Qed.

Lemma C8_exit_status_with_probes_witness :
  exit_status (Raising.run nice_env).2 = 0 ∧
  ∃ st' x, Raising.run locked_env = (st', Stop (Raised x)).
Proof.
  destruct (C8_exit_status_with_probes nice_env) as ([Hnormal _] & _).
  destruct (C8_exit_status_with_probes locked_env) as (_ & _ & _ & _ & Hraise & _).
  split.
  - apply Hnormal. split; [exists "sk-test"; clear; repeat split|].
    clear. intros spec _. reflexivity.
  - apply (Hraise "sk-test" sample_spec
             (Exn "PermissionError" "[Errno 13] Permission denied")).
    + clear. repeat split.
    + clear. apply (bool_decide_unpack _). vm_compute. reflexivity.
    + reflexivity.
Defined.


(** ** Beyond the contract *)

(** *** The calls of one texture *)

Ltac step_calls_tac Hfs :=
  eexists; split; [first [reflexivity | apply trace_broken_off]|];
  split; simpl; [by rewrite Hfs | first [by left | by right] | simpl; lia | simpl; lia].

Lemma generate_texture_calls w client name prompt st st' r :
  generate_texture w client name prompt st = (st', r) →
  ∃ seg, trace st' = trace st ++ seg ∧ step_calls w client name prompt st seg.
Proof.
  intros Hrun.
  destruct (fs st !! output_path w name) as [content|] eqn:Hfs.
  { rewrite (generate_texture_present _ _ _ _ _ _ Hfs) in Hrun.
    injection Hrun as <- <-. step_calls_tac Hfs. }
  destruct (images_generate w client (image_request prompt)) as [e | [[|first rest]]] eqn:Hgen.
  { rewrite (generate_texture_request_raises _ _ _ _ _ _ Hfs Hgen) in Hrun.
    injection Hrun as <- <-. step_calls_tac Hfs. }
  { rewrite (generate_texture_no_item _ _ _ _ _ Hfs Hgen) in Hrun.
    injection Hrun as <- <-. step_calls_tac Hfs. }
  destruct (truthy (url first)) as [link|] eqn:Hurl.
  { destruct (urlretrieve w link (output_path w name)) as [content | f] eqn:Hget.
    - rewrite (generate_texture_url _ _ _ _ _ _ _ _ _ Hfs Hgen Hurl Hget) in Hrun.
      injection Hrun as <- <-. step_calls_tac Hfs.
    - rewrite (generate_texture_url_raises _ _ _ _ _ _ _ _ _ Hfs Hgen Hurl Hget) in Hrun.
      injection Hrun as <- <-. step_calls_tac Hfs. }
  destruct (b64_of first) as [encoded|] eqn:Hb64.
  2: { rewrite (generate_texture_no_data _ _ _ _ _ _ _ Hfs Hgen Hurl Hb64) in Hrun.
       injection Hrun as <- <-. step_calls_tac Hfs. }
  destruct (b64decode w encoded) as [e | content] eqn:Hdec.
  { rewrite (generate_texture_decode_raises _ _ _ _ _ _ _ _ _ Hfs Hgen Hurl Hb64 Hdec) in Hrun.
    injection Hrun as <- <-. step_calls_tac Hfs. }
  destruct (open_write w (output_path w name) content) as [f|] eqn:Hwr.
  - rewrite (generate_texture_write_raises _ _ _ _ _ _ _ _ _ _ Hfs Hgen Hurl Hb64 Hdec Hwr) in Hrun.
    injection Hrun as <- <-. step_calls_tac Hfs.
  - rewrite (generate_texture_b64 _ _ _ _ _ _ _ _ _ Hfs Hgen Hurl Hb64 Hdec Hwr) in Hrun.
    injection Hrun as <- <-. step_calls_tac Hfs.
Qed.

Lemma sent_app t1 t2 : sent (t1 ++ t2) = sent t1 ++ sent t2.
Proof. apply omap_app. Qed.

Lemma downloads_app t1 t2 : downloads (t1 ++ t2) = downloads t1 ++ downloads t2.
Proof. apply omap_app. Qed.

Lemma decodes_app t1 t2 : decodes (t1 ++ t2) = decodes t1 ++ decodes t2.
Proof. apply omap_app. Qed.

Lemma opens_app t1 t2 : opens (t1 ++ t2) = opens t1 ++ opens t2.
Proof. apply omap_app. Qed.

Lemma requests_sent t : requests t = (sent t).*2.
Proof.
  induction t as [|ev t IH]; [done|].
  destruct ev; try exact IH.
  change (req :: requests t = req :: (sent t).*2). by rewrite IH.
Qed.

Lemma item_run_calls w client st0 st' spec seg :
  item_run w client st0 st' spec seg →
  ∃ st1, fs st1 !! output_path w spec.1 = fs st0 !! output_path w spec.1 ∧
         step_calls w client spec.1 spec.2 st1 seg.
Proof.
  intros (st1 & st2 & o & Hbase & Hstep & Hf & _).
  destruct (generate_texture_calls _ _ _ _ _ _ _ Hstep) as (seg' & Htr & Hc).
  rewrite (sf_trace _ _ _ _ _ _ _ _ Hf) in Htr. apply app_inv_head in Htr. subst seg'.
  by exists st1.
Qed.

Section calls.
Context (w : World) (client : Client) (st0 st' : State).
Hypothesis Hstart : fs st0 = files w.

(** One request per spec whose file is missing at start, in order. *)
Lemma item_runs_sent items segs :
  Forall2 (item_run w client st0 st') items segs →
  sent (concat segs) = map (λ spec, (client, image_request spec.2)) (missing w items).
Proof.
  induction 1 as [|spec seg items segs Hitem _ IH]; [done|].
  destruct (item_run_calls _ _ _ _ _ _ Hitem) as (st1 & Hbase & Hc).
  simpl. rewrite sent_app, IH, (sc_sent _ _ _ _ _ _ Hc), Hbase, Hstart.
  unfold missing. simpl. unfold present at 2.
  by destruct (files w !! output_path w spec.1).
Qed.

(** The paths written to are some of the output paths, each at most once. *)
Lemma item_runs_writes_sublist items segs :
  Forall2 (item_run w client st0 st') items segs →
  writes (concat segs) `sublist_of` paths_of w items.
Proof.
  induction 1 as [|spec seg items segs Hitem _ IH]; [constructor|].
  destruct (item_run_calls _ _ _ _ _ _ Hitem) as (st1 & _ & Hc).
  simpl. rewrite writes_app.
  destruct (sc_writes _ _ _ _ _ _ Hc) as [-> | ->]; simpl.
  - by apply sublist_cons.
  - by apply sublist_skip.
Qed.

Lemma item_runs_fetches items segs :
  Forall2 (item_run w client st0 st') items segs →
  (length (downloads (concat segs)) + length (decodes (concat segs))
   ≤ length (sent (concat segs)))%nat ∧
  (length (opens (concat segs)) ≤ length (decodes (concat segs)))%nat.
Proof.
  induction 1 as [|spec seg items segs Hitem _ [IH1 IH2]]; [simpl; lia|].
  destruct (item_run_calls _ _ _ _ _ _ Hitem) as (st1 & _ & Hc).
  pose proof (sc_fetches _ _ _ _ _ _ Hc). pose proof (sc_opens _ _ _ _ _ _ Hc).
  simpl. rewrite downloads_app, decodes_app, sent_app, opens_app, !length_app. lia.
Qed.

(** The outcomes, spec by spec: a skip exactly for a file there at start,
    and a file at the end for every success. *)
Lemma item_runs_aligned items segs :
  Forall2 (item_run w client st0 st') items segs →
  Forall2 (λ spec o,
             (o = AlreadyPresent ↔ is_Some (files w !! output_path w spec.1)) ∧
             (success o = true → is_Some (fs st' !! output_path w spec.1)))
          items (outcomes (concat segs)).
Proof.
  induction 1 as [|spec seg items segs (st1 & st2 & o & Hbase & _ & Hf & Hlast) _ IH];
    [constructor|].
  simpl. rewrite outcomes_app, (sf_outcomes _ _ _ _ _ _ _ _ Hf). simpl.
  constructor; [|done]. rewrite Hstart in Hbase. split.
  - by rewrite (sf_present _ _ _ _ _ _ _ _ Hf), Hbase.
  - intros Ho. rewrite Hlast. destruct o; try done.
    + assert (is_Some (fs st1 !! output_path w spec.1)) as [c Hc]
        by (by apply (sf_present _ _ _ _ _ _ _ _ Hf)).
      exists c. by apply (sf_keep _ _ _ _ _ _ _ _ Hf).
    + by apply (sf_saved _ _ _ _ _ _ _ _ Hf).
Qed.
End calls.

Lemma preamble_quiet w key :
  sent (preamble w key) = [] ∧ downloads (preamble w key) = [] ∧
  decodes (preamble w key) = [] ∧ opens (preamble w key) = [].
Proof. done. Qed.

Lemma epilogue_quiet k :
  sent (epilogue k) = [] ∧ downloads (epilogue k) = [] ∧
  decodes (epilogue k) = [] ∧ opens (epilogue k) = [].
Proof. unfold epilogue. by destruct (_ <? _)%nat. Qed.

(** The calls of a run that reaches the loop. *)
Lemma run_ready_calls w key :
  ready w key →
  ∃ st',
    run w = (st', Next tt) ∧
    sent (trace st') =
      map (λ spec, ({| api_key := key |}, image_request spec.2)) (missing w TEXTURES) ∧
    writes (trace st') `sublist_of` paths_of w TEXTURES ∧
    (length (downloads (trace st')) + length (decodes (trace st'))
     ≤ length (sent (trace st')))%nat ∧
    (length (opens (trace st')) ≤ length (decodes (trace st')))%nat ∧
    Forall2 (λ spec o,
               (o = AlreadyPresent ↔ is_Some (files w !! output_path w spec.1)) ∧
               (success o = true → is_Some (fs st' !! output_path w spec.1)))
            TEXTURES (outcomes (trace st')).
Proof.
  intros Hready.
  destruct (run_ready w key Hready) as (st' & segs & Hrun & Htrace & Hall & _ & _).
  destruct (run_ready_probes _ _ _ _ Htrace Hall) as (_ & Houts & _).
  destruct (preamble_quiet w key) as (Hs0 & Hd0 & Hc0 & Ho0).
  destruct (epilogue_quiet (success_total (outcomes (concat segs)))) as (Hs1 & Hd1 & Hc1 & Ho1).
  destruct (preamble_silent w key) as (_ & Hw0 & _ & _).
  destruct (epilogue_silent (success_total (outcomes (concat segs)))) as (_ & Hw1 & _ & _).
  destruct (item_runs_fetches w _ (boot w) st' _ _ Hall) as [Hf1 Hf2].
  exists st'. rewrite Houts.
  rewrite Htrace, !sent_app, !writes_app, !downloads_app, !decodes_app, !opens_app.
  rewrite Hs0, Hs1, Hd0, Hd1, Hc0, Hc1, Ho0, Ho1, Hw0, Hw1, !app_nil_r, !app_nil_l.
  split_and!; [done | | | done | done | ].
  - by apply (item_runs_sent w _ (boot w) st' eq_refl).
  - by apply (item_runs_writes_sublist w {| api_key := key |} (boot w) st').
  - by apply (item_runs_aligned w {| api_key := key |} (boot w) st' eq_refl).
Qed.

(** The files after any run: every file there at start is still there with
    its bytes, and only output paths of the table can differ. *)
Lemma run_files w st' r :
  run w = (st', r) →
  (∀ p content, files w !! p = Some content → fs st' !! p = Some content) ∧
  (∀ p, p ∉ paths_of w TEXTURES → fs st' !! p = files w !! p).
Proof.
  intros Hrun. destruct (run_cases w) as (st0 & r0 & Hrun0 & Hcase).
  rewrite Hrun in Hrun0. injection Hrun0 as <- <-.
  destruct Hcase as [ | | | | key st' Hready Hrun' ]; try done.
  destruct (run_ready w key Hready) as (st2 & segs & Hrun2 & _ & _ & Hframe & Hkeep).
  rewrite Hrun in Hrun2. by injection Hrun2 as <-.
Qed.

(** A run that does not reach the loop calls nothing but [mkdir] and the
    client constructor. *)
Lemma run_not_ready_quiet w st' r :
  run w = (st', r) → r ≠ Next tt →
  sent (trace st') = [] ∧ writes (trace st') = [] ∧ downloads (trace st') = [] ∧
  decodes (trace st') = [] ∧ opens (trace st') = [] ∧ fs st' = files w.
Proof.
  intros Hrun Hr. destruct (run_cases w) as (st0 & r0 & Hrun0 & Hcase).
  rewrite Hrun in Hrun0. injection Hrun0 as <- <-.
  by destruct Hcase as [ | | | | key st' Hready Hrun' ].
Qed.

Lemma run_ready_writes_absent w key st' p :
  ready w key → run w = (st', Next tt) →
  p ∈ writes (trace st') → files w !! p = None.
Proof.
  intros Hready Hrun.
  destruct (run_ready w key Hready) as (st2 & segs & Hrun2 & Htrace & Hall & _ & _).
  rewrite Hrun in Hrun2. injection Hrun2 as <-.
  destruct (preamble_silent w key) as (_ & Hw0 & _ & _).
  destruct (epilogue_silent (success_total (outcomes (concat segs)))) as (_ & Hw1 & _ & _).
  rewrite Htrace, !writes_app, Hw0, Hw1, app_nil_r, app_nil_l.
  by intros (spec & _ & _ & Hnone)%(item_runs_writes _ _ _ _ _ _ _ Hall).
Qed.

Lemma ready_again w key st : ready w key → ready (run_again w st) key.
Proof. by intros (? & ? & ? & ?). Qed.

Lemma NoDup_fmap_filter {A B} (f : A → B) (P : A → bool) (l : list A) :
  NoDup (f <$> l) → NoDup (f <$> List.filter P l).
Proof.
  induction l as [|x l IH]; [done|].
  rewrite fmap_cons, NoDup_cons. intros [Hfresh Hnd]. simpl.
  destruct (P x); [|by apply IH].
  rewrite fmap_cons. apply NoDup_cons. split; [|by apply IH].
  intros (y & Heq & Hin)%list_elem_of_fmap. apply Hfresh. rewrite Heq.
  apply list_elem_of_fmap_2. apply list_elem_of_In, filter_In in Hin as [Hin _].
  by apply list_elem_of_In.
Qed.

Lemma missing_elem w items spec :
  spec ∈ missing w items ↔ spec ∈ items ∧ files w !! output_path w spec.1 = None.
Proof.
  unfold missing. rewrite !list_elem_of_In, filter_In. unfold present.
  destruct (files w !! output_path w spec.1); simpl; intuition congruence.
Qed.

(** In a run that reaches the loop, the request for a spec of the table is
    sent exactly when the file of the spec is missing at start. *)
Lemma run_requests_iff w key spec :
  ready w key → spec ∈ TEXTURES →
  image_request spec.2 ∈ requests (trace (run w).1) ↔
  files w !! output_path w spec.1 = None.
Proof.
  intros Hready Hin.
  destruct (run_ready_calls w key Hready) as (st' & Hrun & Hsent & _).
  rewrite Hrun. simpl. rewrite requests_sent, Hsent. split.
  - intros (pair & Heq & (spec' & -> & Hmiss)%list_elem_of_fmap)%list_elem_of_fmap.
    simpl in Heq. apply image_request_inj in Heq.
    apply missing_elem in Hmiss as [Hin' Hnone].
    destruct spec as [name prompt], spec' as [name' prompt']. simpl in *. subst prompt'.
    assert (name = name') as -> by (eapply NoDup_snd_inj;
                                    [apply TEXTURES_NoDup_prompts | done | done]).
    done.
  - intros Hnone. apply list_elem_of_fmap.
    exists ({| api_key := key |}, image_request spec.2). split; [done|].
    apply list_elem_of_fmap. exists spec. split; [done|]. by apply missing_elem.
Qed.

Lemma no_failure_all_success os o :
  failed_total os = 0 → o ∈ os → success o = true.
Proof.
  intros Hzero Hin. destruct o; try done.
  apply failed_total_pos in Hin. lia.
Qed.

(** After a run that counts 8 successes, every output file is on disk. *)
Lemma all_success_all_files w key st1 spec :
  ready w key → run w = (st1, Next tt) →
  success_total (outcomes (trace st1)) = 8 →
  spec ∈ TEXTURES → is_Some (fs st1 !! output_path w spec.1).
Proof.
  intros Hready Hrun Hall Hin.
  destruct (run_ready_calls w key Hready) as (st' & Hrun' & _ & _ & _ & _ & Haligned).
  rewrite Hrun in Hrun'. injection Hrun' as <-.
  pose proof (success_failed_total (outcomes (trace st1))) as Hsum.
  pose proof (Forall2_length _ _ _ Haligned) as Hlen. rewrite TEXTURES_length in Hlen.
  apply list_elem_of_lookup in Hin as [i Hi].
  destruct (Forall2_lookup_l _ _ _ _ _ Haligned Hi) as (o & Ho & _ & Hfile).
  apply Hfile. apply no_failure_all_success with (outcomes (trace st1)); [lia|].
  by apply list_elem_of_lookup_2 with i.
Qed.

(** A spec of the table whose file is there at start is skipped by a run
    that reaches the loop. *)
Lemma run_skips_present w key name prompt content :
  ready w key → (name, prompt) ∈ TEXTURES →
  files w !! output_path w name = Some content →
  ∃ st', run w = (st', Next tt) ∧
         fs st' !! output_path w name = Some content ∧
         skip_line name ∈ stdout (trace st') ∧
         (image_request prompt ∉ requests (trace st')).
Proof.
  intros Hready Hin Hfile.
  destruct (run_ready w key Hready) as (st' & segs & Hrun & Htrace & Hall & _ & Hkeep).
  exists st'. split_and!; [done | by apply Hkeep | |].
  - destruct (item_runs_lookup _ _ _ _ _ _ _ Hall Hin) as (seg & Hseg & Hitem).
    destruct (item_run_seg _ _ _ _ _ _
                (λ st1, (logged st1 [EExists (output_path w name); EPrint (skip_line name)],
                         Next true)) Hitem) as (st1 & Hseg_eq & _).
    { intros st1 Hbase. simpl in Hbase.
      apply generate_texture_present with content. by rewrite Hbase. }
    simpl in Hseg_eq. apply app_inv_head in Hseg_eq.
    rewrite Htrace, !stdout_app. apply elem_of_app. right. apply elem_of_app. left.
    apply stdout_concat_elem with seg; [done|]. rewrite <- Hseg_eq. simpl. by left.
  - intros Hreq. pose proof (run_requests_iff w key (name, prompt) Hready Hin) as Hiff.
    rewrite Hrun in Hiff. simpl in Hiff. apply Hiff in Hreq. congruence.
Qed.

Lemma paths_of_NoDup w : NoDup (paths_of w TEXTURES).
Proof.
  change (NoDup ((output_path w ∘ fst) <$> TEXTURES)). rewrite list_fmap_compose.
  apply NoDup_fmap_2; [apply output_path_inj | apply TEXTURES_NoDup_names].
Qed.

Lemma missing_length w items : (length (missing w items) ≤ length items)%nat.
Proof.
  unfold missing. induction items as [|spec items IH]; simpl; [done|].
  destruct (negb (present w spec)); simpl; lia.
Qed.

(** *** Files *)



(** *** Calls *)

(** X2. In a run that reaches the loop, the generation requests are
    exactly one per spec whose file is missing at start, in the order of
    the table, each with the prompt of the spec and the fixed model, count,
    size and quality, and each sent through the client built from the
    credential; no request is sent twice (there is no retry) and none is
    sent for a spec whose file is there. *)
Theorem X2_one_request_per_missing_spec w key :
  ready w key →
  sent (trace (run w).1) =
    map (λ spec, ({| api_key := key |},
                  {| req_model := "gpt-image-1"; req_prompt := spec.2; req_n := 1;
                     req_size := "1024x1024"; req_quality := "medium" |}))
        (missing w TEXTURES) ∧
  NoDup (requests (trace (run w).1)) ∧
  (length (requests (trace (run w).1)) ≤ 8)%nat.
Proof.
  intros Hready.
  destruct (run_ready_calls w key Hready) as (st' & Hrun & Hsent & _).
  rewrite Hrun. simpl. rewrite requests_sent, Hsent. split_and!.
  - reflexivity.
  - rewrite <- list_fmap_compose.
    change (NoDup ((image_request ∘ snd) <$> missing w TEXTURES)).
    rewrite list_fmap_compose. apply NoDup_fmap_2; [apply image_request_inj|].
    apply NoDup_fmap_filter, TEXTURES_NoDup_prompts.
  - rewrite !length_fmap. pose proof (missing_length w TEXTURES) as Hlen.
    by rewrite TEXTURES_length in Hlen.
Qed.

Lemma X2_one_request_per_missing_spec_witness :
  (sent (trace (run three_world).1)).*2 =
    map (λ spec, image_request spec.2)
        [nth 1 TEXTURES ("", ""); nth 2 TEXTURES ("", ""); nth 4 TEXTURES ("", "");
         nth 5 TEXTURES ("", ""); nth 6 TEXTURES ("", "")].
Proof.
  destruct (X2_one_request_per_missing_spec three_world "sk-test") as (Hsent & _).
  - repeat split.
  - rewrite Hsent. vm_compute. reflexivity.
Defined.

(** X3. However the run ends, no path is written to twice, by a download
    or by the script, and every path written to is an output path of the
    table that was missing at start. *)
Theorem X3_each_output_written_at_most_once w :
  NoDup (writes (trace (run w).1)) ∧
  ∀ p, p ∈ writes (trace (run w).1) →
       p ∈ paths_of w TEXTURES ∧ files w !! p = None.
Proof.
  destruct (run_cases w) as (st' & r & Hrun & Hcase). rewrite Hrun. simpl.
  destruct Hcase as [ | | | | key st' Hready _ ];
    try (split; [constructor | by intros p ?%not_elem_of_nil]).
  destruct (run_ready_calls w key Hready) as (st2 & Hrun2 & _ & Hsub & _).
  rewrite Hrun in Hrun2. injection Hrun2 as <-. split.
  - eapply sublist_NoDup; [apply paths_of_NoDup | exact Hsub].
  - intros p Hp. split; [by eapply elem_of_sublist|].
    by apply (run_ready_writes_absent w key st').
Qed.

Ltac call_shape_tac :=
  eexists; split; [first [reflexivity | apply trace_broken_off]|];
  simpl; by econstructor.

Lemma generate_texture_call_shape w client name prompt st st' r :
  generate_texture w client name prompt st = (st', r) →
  ∃ seg, trace st' = trace st ++ seg ∧
         call_shape w client name prompt (image_calls seg).
Proof.
  intros Hrun.
  destruct (fs st !! output_path w name) as [content|] eqn:Hfs.
  { rewrite (generate_texture_present _ _ _ _ _ _ Hfs) in Hrun.
    injection Hrun as <- <-. call_shape_tac. }
  destruct (images_generate w client (image_request prompt)) as [e | [[|first rest]]] eqn:Hgen.
  { rewrite (generate_texture_request_raises _ _ _ _ _ _ Hfs Hgen) in Hrun.
    injection Hrun as <- <-. call_shape_tac. }
  { rewrite (generate_texture_no_item _ _ _ _ _ Hfs Hgen) in Hrun.
    injection Hrun as <- <-. call_shape_tac. }
  destruct (truthy (url first)) as [link|] eqn:Hurl.
  { destruct (urlretrieve w link (output_path w name)) as [content | f] eqn:Hget.
    - rewrite (generate_texture_url _ _ _ _ _ _ _ _ _ Hfs Hgen Hurl Hget) in Hrun.
      injection Hrun as <- <-. call_shape_tac.
    - rewrite (generate_texture_url_raises _ _ _ _ _ _ _ _ _ Hfs Hgen Hurl Hget) in Hrun.
      injection Hrun as <- <-. call_shape_tac. }
  destruct (b64_of first) as [encoded|] eqn:Hb64.
  2: { rewrite (generate_texture_no_data _ _ _ _ _ _ _ Hfs Hgen Hurl Hb64) in Hrun.
       injection Hrun as <- <-. call_shape_tac. }
  destruct (b64decode w encoded) as [e | content] eqn:Hdec.
  { rewrite (generate_texture_decode_raises _ _ _ _ _ _ _ _ _ Hfs Hgen Hurl Hb64 Hdec) in Hrun.
    injection Hrun as <- <-. call_shape_tac. }
  destruct (open_write w (output_path w name) content) as [f|] eqn:Hwr.
  - rewrite (generate_texture_write_raises _ _ _ _ _ _ _ _ _ _ Hfs Hgen Hurl Hb64 Hdec Hwr) in Hrun.
    injection Hrun as <- <-. call_shape_tac.
  - rewrite (generate_texture_b64 _ _ _ _ _ _ _ _ _ Hfs Hgen Hurl Hb64 Hdec Hwr) in Hrun.
    injection Hrun as <- <-. call_shape_tac.
Qed.

Lemma image_calls_app t1 t2 : image_calls (t1 ++ t2) = image_calls t1 ++ image_calls t2.
Proof. apply List.filter_app. Qed.

Lemma image_calls_concat segs :
  image_calls (concat segs) = concat (map image_calls segs).
Proof.
  induction segs as [|seg segs IH]; [done|].
  simpl. by rewrite image_calls_app, IH.
Qed.

(** X4. In a run that reaches the loop, the trace is the preamble, one
    segment per spec of the table in order, and the epilogue, and the image
    calls of the whole run are those of the segments.  The image calls of
    the segment of a spec are, in this order, one of: none; the request of
    the spec alone; the request, then one download to the output path of
    the spec; the request, then one decoding; the request, then one
    decoding, then one writing to the output path of the bytes the decoding
    returned.  So no spec gets both a download and a decoding, the script
    opens a file itself only after a decoding, and nothing is downloaded,
    decoded or written without the request before it. *)
Theorem X4_image_calls_of_each_spec w key :
  ready w key →
  ∃ st' segs,
    run w = (st', Next tt) ∧
    trace st' = preamble w key ++ concat segs
                ++ epilogue (success_total (outcomes (concat segs))) ∧
    image_calls (trace st') = concat (map image_calls segs) ∧
    Forall2 (λ spec seg,
               call_shape w {| api_key := key |} spec.1 spec.2 (image_calls seg))
            TEXTURES segs.
Proof.
  intros Hready.
  destruct (run_ready w key Hready) as (st' & segs & Hrun & Htrace & Hall & _ & _).
  exists st', segs. split_and!; [done | done | |].
  - rewrite Htrace, !image_calls_app, image_calls_concat.
    assert (image_calls (epilogue (success_total (outcomes (concat segs)))) = []) as ->
      by (unfold epilogue; by destruct (_ <? _)%nat).
    by rewrite app_nil_r.
  - eapply Forall2_impl; [exact Hall|].
    intros spec seg (st1 & st2 & o & _ & Hstep & Hf & _).
    destruct (generate_texture_call_shape _ _ _ _ _ _ _ Hstep) as (seg' & Htr & Hshape).
    rewrite (sf_trace _ _ _ _ _ _ _ _ Hf) in Htr. apply app_inv_head in Htr. by subst seg'.
Qed.

Lemma X4_image_calls_of_each_spec_witness :
  ∃ segs, length segs = 8 ∧
          image_calls (trace (run three_world).1) = concat (map image_calls segs) ∧
          Forall2 (λ spec seg,
                     call_shape three_world {| api_key := "sk-test" |} spec.1 spec.2
                       (image_calls seg))
                  TEXTURES segs.
Proof.
  destruct (X4_image_calls_of_each_spec three_world "sk-test")
    as (st' & segs & Hrun & _ & Hcalls & Hshapes).
  - repeat split.
  - exists segs. split_and!.
    + symmetry. exact (Forall2_length _ _ _ Hshapes).
    + rewrite Hrun. exact Hcalls.
    + exact Hshapes.
Defined.

(** X5. In a run that reaches the loop, whenever the outcome recorded for a
    spec is saved or already-present (the ones the summary counts), the
    output file of the spec is on disk at the end; and the outcome is
    already-present exactly when the file was on disk at start. *)
Theorem X5_counted_success_has_its_file w key :
  ready w key →
  Forall2 (λ spec o,
             (o = AlreadyPresent ↔ is_Some (files w !! output_path w spec.1)) ∧
             (success o = true → is_Some (fs (run w).1 !! output_path w spec.1)))
          TEXTURES (outcomes (trace (run w).1)).
Proof.
  intros Hready.
  destruct (run_ready_calls w key Hready) as (st' & Hrun & _ & _ & _ & _ & Haligned).
  by rewrite Hrun.
Qed.

Lemma X5_counted_success_has_its_file_witness :
  length (outcomes (trace (run three_world).1)) = 8.
Proof.
  rewrite <- (Forall2_length _ _ _ (X5_counted_success_has_its_file three_world "sk-test"
                                     ltac:(repeat split))).
  reflexivity.
Defined.

(** *** Running the script again *)

(** X6. When a run that reaches the loop counts 8 successes, running the
    script again over the files it left reaches the loop too, sends no
    request, downloads, decodes and writes nothing, leaves the files
    exactly as they are, and records 8 skips. *)
Theorem X6_second_run_after_success_is_idle w key st1 :
  ready w key →
  run w = (st1, Next tt) →
  success_total (outcomes (trace st1)) = 8 →
  ∃ st2,
    run (run_again w st1) = (st2, Next tt) ∧
    fs st2 = fs st1 ∧
    sent (trace st2) = [] ∧ downloads (trace st2) = [] ∧ decodes (trace st2) = [] ∧
    writes (trace st2) = [] ∧
    Forall (λ o, o = AlreadyPresent) (outcomes (trace st2)) ∧
    length (outcomes (trace st2)) = 8.
Proof.
  intros Hready Hrun Hall.
  pose proof (ready_again w key st1 Hready) as Hready2.
  assert (Hfiles : ∀ spec, spec ∈ TEXTURES → is_Some (fs st1 !! output_path w spec.1))
    by (intros spec; by apply (all_success_all_files w key)).
  assert (Hnone : missing (run_again w st1) TEXTURES = []).
  { destruct (missing (run_again w st1) TEXTURES) as [|spec l] eqn:Hm; [done|].
    assert (spec ∈ missing (run_again w st1) TEXTURES) as [Hin Habs]%missing_elem
      by (rewrite Hm; by left).
    simpl in Habs. destruct (Hfiles spec Hin) as [c Hc].
    change (fs st1 !! output_path w spec.1 = None) in Habs. congruence. }
  destruct (run_ready_calls _ key Hready2)
    as (st2 & Hrun2 & Hsent & Hsub & Hf1 & Hf2 & Haligned).
  rewrite Hnone in Hsent. simpl in Hsent. rewrite Hsent in Hf1. simpl in Hf1.
  destruct (run_files _ _ _ Hrun2) as [Hkeep Hframe].
  assert (Hwrites : writes (trace st2) = []).
  { destruct (writes (trace st2)) as [|p l] eqn:Hw; [done|].
    assert (Hp : p ∈ writes (trace st2)) by (rewrite Hw; by left).
    pose proof (run_ready_writes_absent _ key st2 p Hready2 Hrun2 Hp) as Habs.
    rewrite <- Hw in Hsub.
    apply (elem_of_sublist _ _ _ Hp) in Hsub. unfold paths_of in Hsub.
    apply list_elem_of_fmap in Hsub as (spec & -> & Hin).
    destruct (Hfiles spec Hin) as [c Hc]. simpl in Habs.
    change (fs st1 !! output_path w spec.1 = None) in Habs. congruence. }
  exists st2. split_and!; try done.
  - apply map_eq. intros p. destruct (fs st1 !! p) as [c|] eqn:Hp; [by apply Hkeep|].
    rewrite <- Hp. apply Hframe. unfold paths_of.
    intros (spec & -> & Hin)%list_elem_of_fmap.
    destruct (Hfiles spec Hin) as [c Hc].
    change (fs st1 !! output_path w spec.1 = None) in Hp. congruence.
  - destruct (downloads (trace st2)); [done | simpl in Hf1; lia].
  - destruct (decodes (trace st2)); [done|]. simpl in Hf1. lia.
  - apply Forall_forall. intros o [i Ho]%list_elem_of_lookup.
    destruct (Forall2_lookup_r _ _ _ _ _ Haligned Ho) as (spec & Hspec & Hskip & _).
    apply Hskip. apply (Hfiles spec). by apply list_elem_of_lookup_2 with i.
  - by rewrite <- (Forall2_length _ _ _ Haligned).
Qed.

Lemma X6_second_run_after_success_is_idle_witness :
  ∃ st2, run (run_again three_world (run three_world).1) = (st2, Next tt) ∧
         fs st2 = fs (run three_world).1 ∧ sent (trace st2) = [].
Proof.
  destruct (X6_second_run_after_success_is_idle three_world "sk-test" (run three_world).1)
    as (st2 & Hrun2 & Hfs & Hsent & _).
  - repeat split.
  - vm_compute. reflexivity.
  - vm_compute. reflexivity.
  - exists st2. split_and!; [exact Hrun2 | exact Hfs | exact Hsent].
Defined.

(** X7. After a run that reaches the loop, running the script again sends
    the request of a spec of the table exactly when there is no file at the
    output path of the spec at the end of the first run; so no spec that
    the first run recorded as saved or already-present is requested
    again. *)
Theorem X7_second_run_requests_the_files_not_there w key st1 :
  ready w key →
  run w = (st1, Next tt) →
  (∀ spec, spec ∈ TEXTURES →
           image_request spec.2 ∈ requests (trace (run (run_again w st1)).1) ↔
           fs st1 !! output_path w spec.1 = None) ∧
  Forall2 (λ spec o,
             success o = true →
             image_request spec.2 ∉ requests (trace (run (run_again w st1)).1))
          TEXTURES (outcomes (trace st1)).
Proof.
  intros Hready Hrun.
  pose proof (ready_again w key st1 Hready) as Hready2.
  assert (Hiff : ∀ spec, spec ∈ TEXTURES →
                 image_request spec.2 ∈ requests (trace (run (run_again w st1)).1) ↔
                 fs st1 !! output_path w spec.1 = None)
    by (intros spec Hin; exact (run_requests_iff _ key spec Hready2 Hin)).
  split; [exact Hiff|].
  destruct (run_ready_calls w key Hready) as (st' & Hrun' & _ & _ & _ & _ & Haligned).
  rewrite Hrun in Hrun'. injection Hrun' as <-.
  apply Forall2_same_length_lookup. split; [by apply Forall2_length in Haligned|].
  intros i spec o Hspec Ho Hsuccess Hreq.
  destruct (Forall2_lookup_l _ _ _ _ _ Haligned Hspec) as (o' & Ho' & _ & Hfile).
  rewrite Ho in Ho'. injection Ho' as <-.
  apply Hiff in Hreq; [|by apply list_elem_of_lookup_2 with i].
  destruct (Hfile Hsuccess) as [c Hc]. congruence.
Qed.

Lemma X7_second_run_requests_the_files_not_there_witness :
  image_request sample_spec.2
    ∈ requests (trace (run (run_again down_world (run down_world).1)).1).
Proof.
  destruct (X7_second_run_requests_the_files_not_there down_world "sk-test"
              (run down_world).1) as [Hiff _].
  - repeat split.
  - vm_compute. reflexivity.
  - apply Hiff.
    + apply (bool_decide_unpack _). vm_compute. reflexivity.
    + vm_compute. reflexivity.
Defined.

(** X8. When the download for a spec of the table breaks off and leaves a
    truncated file at the output path, the run prints the failure for the
    spec, and the truncated file is on disk at the end; running the script
    again then skips the spec: it prints the skip notice, sends no request
    for the prompt, and the truncated file stays. *)
Theorem X8_truncated_download_is_kept_and_skipped
    w key name prompt first rest link f partial :
  ready w key →
  (name, prompt) ∈ TEXTURES →
  files w !! output_path w name = None →
  images_generate w {| api_key := key |} (image_request prompt)
    = inr {| data := first :: rest |} →
  truthy (url first) = Some link →
  urlretrieve w link (output_path w name) = inr f →
  left_behind f = Some partial →
  ∃ st1 st2,
    run w = (st1, Next tt) ∧
    failed_line name (raised f) ∈ stdout (trace st1) ∧
    fs st1 !! output_path w name = Some partial ∧
    run (run_again w st1) = (st2, Next tt) ∧
    skip_line name ∈ stdout (trace st2) ∧
    (image_request prompt ∉ requests (trace st2)) ∧
    fs st2 !! output_path w name = Some partial.
Proof.
  intros Hready Hin Hfile Hgen Hurl Hget Hleft.
  destruct (run_ready w key Hready) as (st1 & segs & Hrun & Htrace & Hall & _ & _).
  destruct (item_runs_lookup _ _ _ _ _ _ _ Hall Hin) as (seg & Hseg & Hitem).
  destruct (item_run_seg _ _ _ _ _ _
              (λ st, (broken_off st (output_path w name) (left_behind f)
                        [EExists (output_path w name); EPrint (gen_line name);
                         EGenerate {| api_key := key |} (image_request prompt);
                         EUrlretrieve link (output_path w name);
                         EPrint (failed_line name (raised f))], Next false)) Hitem)
    as (st0 & Hseg_eq & Hlast & _).
  { intros st0 Hbase. simpl in Hbase.
    apply generate_texture_url_raises with first rest; [by rewrite Hbase | done..]. }
  simpl in Hseg_eq, Hlast. rewrite trace_broken_off in Hseg_eq.
  apply app_inv_head in Hseg_eq.
  assert (Hpartial : fs st1 !! output_path w name = Some partial).
  { rewrite Hlast, Hleft. simpl. apply lookup_insert_eq. }
  destruct (run_skips_present (run_again w st1) key name prompt partial)
    as (st2 & Hrun2 & Hfs2 & Hskip & Hreq); [by apply ready_again | done | exact Hpartial|].
  exists st1, st2. split_and!; try done.
  rewrite Htrace, !stdout_app. apply elem_of_app. right. apply elem_of_app. left.
  apply stdout_concat_elem with seg; [done|]. rewrite <- Hseg_eq. simpl.
  right. by left.
Qed.

Lemma X8_truncated_download_is_kept_and_skipped_witness :
  ∃ st1 st2,
    run truncating_world = (st1, Next tt) ∧
    run (run_again truncating_world st1) = (st2, Next tt) ∧
    fs st2 !! output_path truncating_world sample_spec.1 = Some [x89; x50] ∧
    skip_line sample_spec.1 ∈ stdout (trace st2).
Proof.
  destruct (X8_truncated_download_is_kept_and_skipped truncating_world "sk-test"
              sample_spec.1 sample_spec.2
              {| url := Some ("https://img.test/" +:+ sample_spec.2); b64_json := AttrNone |}
              [] ("https://img.test/" +:+ sample_spec.2)
              {| left_behind := Some [x89; x50];
                 raised := Exn "ContentTooShortError"
                               "retrieval incomplete: got only 2 out of 4 bytes" |}
              [x89; x50])
    as (st1 & st2 & Hrun1 & _ & _ & Hrun2 & Hskip & _ & Hfs).
  - repeat split.
  - apply (bool_decide_unpack _). vm_compute. reflexivity.
  - vm_compute. reflexivity.
  - reflexivity.
  - reflexivity.
  - reflexivity.
  - reflexivity.
  - exists st1, st2. split_and!; [exact Hrun1 | exact Hrun2 | exact Hfs | exact Hskip].
Defined.

Lemma generate_texture_raises_clean w client name prompt ph e :
  raises w client name prompt ph e →
  ph ≠ Download → ph ≠ Write →
  ∃ seg, last (stdout seg) = Some (failed_line name e) ∧
         ∀ st, fs st !! output_path w name = None →
               generate_texture w client name prompt st = (logged st seg, Next false).
Proof.
  intros Hraises Hd Hw.
  destruct Hraises as [e Hgen | Hgen | first rest link f Hgen Hurl Hget
                      | first rest encoded e Hgen Hurl Hb64 Hdec
                      | first rest encoded content f Hgen Hurl Hb64 Hdec Hwr];
    try done.
  - eexists. split; [|intros st Hfs; by apply generate_texture_request_raises]. done.
  - eexists. split; [|intros st Hfs; by apply generate_texture_no_item]. done.
  - eexists. split;
      [|intros st Hfs; by apply generate_texture_decode_raises with first rest]. done.
Qed.

(** X9. When, for a spec of the table whose file is missing, the request,
    the subscript of the response or the decoding raises, the run prints
    the failure for the spec and there is still no file at the output path
    at the end; running the script again sends the request for the spec
    again. *)
Theorem X9_failure_before_writing_is_retried w key name prompt ph e :
  ready w key →
  (name, prompt) ∈ TEXTURES →
  files w !! output_path w name = None →
  raises w {| api_key := key |} name prompt ph e →
  ph ≠ Download → ph ≠ Write →
  ∃ st1,
    run w = (st1, Next tt) ∧
    failed_line name e ∈ stdout (trace st1) ∧
    fs st1 !! output_path w name = None ∧
    image_request prompt ∈ requests (trace (run (run_again w st1)).1).
Proof.
  intros Hready Hin Hfile Hraises Hd Hw.
  destruct (generate_texture_raises_clean _ _ _ _ _ _ Hraises Hd Hw) as (evs & Hlast & Heval).
  destruct (run_ready w key Hready) as (st1 & segs & Hrun & Htrace & Hall & _ & _).
  destruct (item_runs_lookup _ _ _ _ _ _ _ Hall Hin) as (seg & Hseg & Hitem).
  destruct (item_run_seg _ _ _ _ _ _ (λ st, (logged st evs, Next false)) Hitem)
    as (st0 & Hseg_eq & Hend & Hbase).
  { intros st0 Hbase. simpl in Hbase. apply Heval. by rewrite Hbase. }
  simpl in Hseg_eq, Hend, Hbase. apply app_inv_head in Hseg_eq. subst evs.
  assert (Hnone : fs st1 !! output_path w name = None) by (by rewrite Hend, Hbase).
  exists st1. split_and!; [done | | done |].
  - rewrite Htrace, !stdout_app. apply elem_of_app. right. apply elem_of_app. left.
    apply stdout_concat_elem with seg; [done|].
    apply last_Some in Hlast as (l' & ->). apply elem_of_app. right. by left.
  - apply (run_requests_iff (run_again w st1) key (name, prompt));
      [by apply ready_again | done | exact Hnone].
Qed.

Lemma X9_failure_before_writing_is_retried_witness :
  ∃ st1, run down_world = (st1, Next tt) ∧
         fs st1 !! output_path down_world sample_spec.1 = None ∧
         image_request sample_spec.2
           ∈ requests (trace (run (run_again down_world st1)).1).
Proof.
  destruct (X9_failure_before_writing_is_retried down_world "sk-test"
              sample_spec.1 sample_spec.2 Request
              (Exn "APIConnectionError" "Connection error."))
    as (st1 & Hrun & _ & Hnone & Hreq).
  - repeat split.
  - apply (bool_decide_unpack _). vm_compute. reflexivity.
  - vm_compute. reflexivity.
  - apply raises_request. reflexivity.
  - discriminate.
  - discriminate.
  - exists st1. split_and!; [exact Hrun | exact Hnone | exact Hreq].
Defined.

(** *** Starting up *)

(** X10. With the package imported and the credential set, an exception
    raised by the creation of the output directory is not caught: the
    process ends on it with status 1 before anything is printed and before
    the client is constructed.  An exception raised by the client
    constructor is not caught either: the process ends on it with status 1
    after the three header lines, before any output path is probed.  In
    both cases the files are untouched. *)
Theorem X10_startup_exceptions_end_the_process w key e :
  openai_installed w = true →
  credential w = Some key →
  (mkdir w (OUTPUT_DIR w) = Some e →
   run w = ({| fs := files w; trace := [EMkdir (OUTPUT_DIR w)] |}, Stop (Raised e)) ∧
   exit_status (run w).2 = 1) ∧
  (mkdir w (OUTPUT_DIR w) = None → OpenAI w key = Some e →
   run w = ({| fs := files w;
               trace := [EMkdir (OUTPUT_DIR w); EPrint (target_line w);
                         EPrint total_line; EPrint ""; ENewClient key] |},
            Stop (Raised e)) ∧
   exit_status (run w).2 = 1).
Proof.
  intros Hinst Hkey. split.
  - intros Hmk. unfold run.
    rewrite (script_installed _ _ Hinst), (main_mkdir_raises _ _ _ _ Hkey Hmk). by split.
  - intros Hmk Hcl. unfold run.
    rewrite (script_installed _ _ Hinst), (main_client_raises _ _ _ _ Hkey Hmk Hcl).
    by split.
Qed.

Lemma X10_startup_exceptions_end_the_process_witness :
  stdout (trace (run read_only_world).1) = [] ∧
  stdout (trace (run no_client_world).1)
    = [target_line no_client_world; total_line; ""].
Proof.
  split.
  - destruct (X10_startup_exceptions_end_the_process read_only_world "sk-test"
                (Exn "PermissionError" "[Errno 13] Permission denied")) as [Hmk _];
      [reflexivity | reflexivity |].
    destruct Hmk as [-> _]; reflexivity.
  - destruct (X10_startup_exceptions_end_the_process no_client_world "sk-test"
                (Exn "TypeError" "unexpected keyword argument")) as [_ Hcl];
      [reflexivity | reflexivity |].
    destruct Hcl as [-> _]; reflexivity.
Defined.

Lemma X3_each_output_written_at_most_once_witness :
  NoDup (writes (trace (run three_world).1)) ∧
  files three_world !! "/repo/public/textures/zones/ritual_floor.png" = None.
Proof.
  destruct (X3_each_output_written_at_most_once three_world) as [Hnd Hin].
  split; [exact Hnd|].
  apply Hin. apply (bool_decide_unpack _). vm_compute. reflexivity.
Defined.

